(** * WorkshopChat: the comment store, the catch-up watermark and the
      history exchange of [gui/src/app/WorkshopChat/WorkshopChat.tsx]

    The development embeds the reducer [chatCommentsReducer], the inbound
    message handler registered with [ephemeriChatClient.onMessage], the
    effect that advances the catch-up timestamp, [handleClearAllComments],
    [getCaughtUpTimestamp] and [setCaughtUpTimestamp].

    Conventions of the embedding.
    - JavaScript numbers that the component handles are epoch milliseconds
      and sizes; they are integers and are taken in [Z].  A number that may
      be [NaN] (the result of [parseInt]) has type [number].
    - [Date.now()] is an explicit argument [now]; it is read as one value
      during one synchronous run of a function.
    - A JavaScript exception is an explicit result ([Throws]).
    - [JSON.parse] and [JSON.stringify(...).length] are platform functions,
      not code of the component: they are parameters of the development.
      So is the exponent form in which the engine prints a number of
      absolute value 10^21 or more. *)

From Stdlib Require Import ZArith List String Ascii Bool Lia.
From Stdlib Require Import Sorting.Sorted Sorting.Permutation.
From Stdlib Require Import DecimalString DecimalPos.
From Equations Require Import Equations.
From Equations.Prop Require Import Logic.
Import ListNotations.

Open Scope string_scope.
Open Scope list_scope.
Open Scope Z_scope.

(* ------------------------------------------------------------------ *)
(** ** Values, messages and comments                                   *)
(* ------------------------------------------------------------------ *)

Set Warnings "-register-all".

(** What [JSON.parse] can return, plus [undefined] (the result of reading
    a property that an object does not have).  An object is the list of
    its own properties. *)
Inductive value : Type :=
| VUndefined
| VNull
| VBool (b : bool)
| VNum (n : Z)
| VStr (s : string)
| VArr (items : list value)
| VObj (fields : list (string * value)).

(** A number that may be [NaN]. *)
Inductive number : Type :=
| Num (z : Z)
| NaN.

Inductive error : Type :=
| SyntaxError
| TypeError.

(** The result of a computation that may throw. *)
Inductive outcome (A : Type) : Type :=
| Returns (a : A)
| Throws (e : error).
Arguments Returns {A} a.
Arguments Throws {A} e.

Definition bind {A B : Type} (x : outcome A) (f : A -> outcome B) : outcome B :=
  match x with
  | Returns a => f a
  | Throws e => Throws e
  end.

Notation "x <- e1 ;; e2" := (bind e1 (fun x => e2))
  (at level 61, e1 at next level, right associativity).

(** Modelled from the spec: the type [ChatMessage] is imported from
    [EphemeriChatClient/types], which is not part of the sources at hand.
    The record has the fields of the spec's RawMessage, which are the
    fields the component reads. *)
Record ChatMessage : Type := {
  systemSignature : string;
  senderPublicKey : string;
  timestamp : Z;
  messageJson : string
}.

(** [type ChatComment].  [userName] and [comment] hold whatever the
    decoded payload carries under these names. *)
Record ChatComment : Type := {
  commentId : string;
  commentSenderPublicKey : string;
  userName : value;
  commentTimestamp : Z;
  comment : value;
  chatMessage : ChatMessage
}.

(** [type ChatCommentAction]. *)
Inductive ChatCommentAction : Type :=
| add (commentChatMessage : ChatMessage)
| addMultiple (commentChatMessages : list ChatMessage)
| clear.

(* ------------------------------------------------------------------ *)
(** ** Property access and the sort of the JavaScript engine           *)
(* ------------------------------------------------------------------ *)

Fixpoint lookup (k : string) (fields : list (string * value)) : value :=
  match fields with
  | [] => VUndefined
  | (k', v) :: rest => if String.eqb k k' then v else lookup k rest
  end.

(** [v.k] for the property names the component reads ([type],
    [userName], [comment], [startTimestamp], [comments]): a [TypeError] on
    [null] and [undefined], the property of an object, and [undefined] on
    every other value, which has no property of these names. *)
Definition prop (v : value) (k : string) : outcome value :=
  match v with
  | VUndefined | VNull => Throws TypeError
  | VObj fields => Returns (lookup k fields)
  | _ => Returns VUndefined
  end.

(** [Array.prototype.sort(compareFn)].  The language requires the sort to
    be stable; a stable sort has one possible result for a comparator that
    comes from a total preorder (see [stable_sort_unique]), so the
    insertion sort below computes the array the engine returns. *)
Section ArraySort.
Context {A : Type} (compareFn : A -> A -> Z).

Fixpoint insert (x : A) (l : list A) : list A :=
  match l with
  | [] => [x]
  | y :: l' => if compareFn x y <=? 0 then x :: l else y :: insert x l'
  end.

Definition Array_sort (l : list A) : list A := fold_right insert [] l.
End ArraySort.

(* ------------------------------------------------------------------ *)
(** ** The reducer                                                     *)
(* ------------------------------------------------------------------ *)

Definition expireTimeMsec : Z := 1000 * 60 * 60 * 1.

Definition byTimestamp (a b : ChatComment) : Z :=
  commentTimestamp a - commentTimestamp b.

Section Reducer.
(** [JSON.parse]; [None] stands for the [SyntaxError] it throws. *)
Variable JSON_parse : string -> option value.

(** The [case "add"] of [chatCommentsReducer]. *)
Definition reduceAdd (now : Z) (state : list ChatComment) (m : ChatMessage)
  : outcome (list ChatComment) :=
  if timestamp m <? now - expireTimeMsec then Returns state
  else
    match JSON_parse (messageJson m) with
    | None => Throws SyntaxError
    | Some msg =>
        u <- prop msg "userName" ;;
        c <- prop msg "comment" ;;
        let comment := {| commentId := systemSignature m;
                          commentSenderPublicKey := senderPublicKey m;
                          userName := u;
                          commentTimestamp := timestamp m;
                          comment := c;
                          chatMessage := m |} in
        match find (fun c => String.eqb (commentId c) (commentId comment)) state with
        | Some _ => Returns state
        | None => Returns (Array_sort byTimestamp (state ++ [comment]))
        end
    end.

(** The loop of [case "addMultiple"]. *)
Fixpoint reduceAddMultiple (now : Z) (s : list ChatComment)
         (ms : list ChatMessage) : outcome (list ChatComment) :=
  match ms with
  | [] => Returns s
  | m :: ms' => s' <- reduceAdd now s m ;; reduceAddMultiple now s' ms'
  end.

Definition chatCommentsReducer (now : Z) (state : list ChatComment)
           (action : ChatCommentAction) : outcome (list ChatComment) :=
  match action with
  | add m => reduceAdd now state m
  | addMultiple ms => reduceAddMultiple now state ms
  | clear => Returns []
  end.

(** The states of the store: [useReducer(chatCommentsReducer, [])] and
    every state a dispatched action leads to. *)
Inductive reachable : list ChatComment -> Prop :=
| reachable_init : reachable []
| reachable_step now state action state' :
    reachable state ->
    chatCommentsReducer now state action = Returns state' ->
    reachable state'.
End Reducer.

(* ------------------------------------------------------------------ *)
(** ** The catch-up timestamp in [localStorage]                        *)
(* ------------------------------------------------------------------ *)

Definition isWhiteSpace (c : ascii) : bool :=
  let n := Z.of_nat (nat_of_ascii c) in
  ((9 <=? n) && (n <=? 13)) || (n =? 32).

Fixpoint trimStart (s : string) : string :=
  match s with
  | String c s' => if isWhiteSpace c then trimStart s' else s
  | EmptyString => s
  end.

(** The value of a character as a digit: [0-9], then [a-z] and [A-Z]
    for ten and more. *)
Definition digitValue (c : ascii) : option Z :=
  let n := Z.of_nat (nat_of_ascii c) in
  if (48 <=? n) && (n <=? 57) then Some (n - 48)
  else if (97 <=? n) && (n <=? 122) then Some (n - 87)
  else if (65 <=? n) && (n <=? 90) then Some (n - 55)
  else None.

(** The longest prefix of [s] made of digits of the radix; [acc] is
    [None] as long as no digit was read. *)
Fixpoint parseDigits (radix : Z) (s : string) (acc : option Z) : option Z :=
  match s with
  | String c s' =>
      match digitValue c with
      | Some d =>
          if d <? radix
          then parseDigits radix s'
                 (Some (radix * match acc with Some a => a | None => 0 end + d))
          else acc
      | None => acc
      end
  | EmptyString => acc
  end.

Definition stripSign (s : string) : Z * string :=
  match s with
  | String "-" r => (-1, r)
  | String "+" r => (1, r)
  | _ => (1, s)
  end.

Definition stripPrefix (s : string) : Z * string :=
  match s with
  | String "0" (String "x" r) => (16, r)
  | String "0" (String "X" r) => (16, r)
  | _ => (10, s)
  end.

(** [parseInt(s)] with no radix, on ASCII text: leading white space, a
    sign, the prefix [0x] or [0X] for radix 16, then the digits; [NaN]
    when there is no digit.  The result is the integer the digits
    denote, which the engine rounds to a double. *)
Definition parseInt (s : string) : number :=
  let '(sign, s2) := stripSign (trimStart s) in
  let '(radix, s3) := stripPrefix s2 in
  match parseDigits radix s3 None with
  | Some n => Num (sign * n)
  | None => NaN
  end.

(** The decimal digits of an integer, with a minus sign when
    negative. *)
Definition decimalDigits (z : Z) : string :=
  NilEmpty.string_of_int (Z.to_int z).

Section CaughtUpStorage.
(** What the engine prints for a number of absolute value 10^21 or
    more: the exponent form ([1e+21], [1.5e+22]), with the digits the
    engine chooses. *)
Variable Number_exponential : Z -> string.

(** [timestamp.toString()] of an integer: its decimal digits below
    10^21 in absolute value, the exponent form from there on. *)
Definition Number_toString (z : Z) : string :=
  if Z.abs z <? 10 ^ 21 then decimalDigits z else Number_exponential z.

(** What [localStorage.getItem("workshop-chat-caught-up-timestamp")]
    does: it throws (storage not accessible), or returns the stored
    string, or [null]. *)
Inductive getItemResult : Type :=
| getItemThrows
| getItemReturns (a : option string).

(** [if (a)]: [null] and the empty string are falsy. *)
Definition truthy (a : option string) : bool :=
  match a with
  | Some (String _ _) => true
  | _ => false
  end.

Definition getCaughtUpTimestamp (now : Z) (r : getItemResult) : number :=
  match r with
  | getItemReturns a =>
      if truthy a
      then parseInt (match a with Some s => s | None => "" end)
      else Num (now - 1000 * 60 * 60 * 24)
  | getItemThrows => Num (now - 1000 * 60 * 60 * 24)
  end.

(** The stored item, with the record of the calls of
    [setCaughtUpTimestamp]: for each call, the item it found and the
    timestamp it was given. *)
Record SetCall : Type := {
  itemBefore : option string;
  given : Z
}.

Record Storage : Type := {
  item : option string;
  calls : list SetCall
}.

Definition setCaughtUpTimestamp (t : Z) (st : Storage) : Storage :=
  {| item := Some (Number_toString t);
     calls := calls st ++ [{| itemBefore := item st; given := t |}] |}.

(** [getCaughtUpTimestamp()] on an accessible storage. *)
Definition caughtUp (now : Z) (st : Storage) : number :=
  getCaughtUpTimestamp now (getItemReturns (item st)).

(** [x < y] and [x > y] for a number [x] and a possibly-[NaN] [y]. *)
Definition lt_number (x : Z) (y : number) : bool :=
  match y with
  | Num z => x <? z
  | NaN => false
  end.

Definition gt_number (x : Z) (y : number) : bool :=
  match y with
  | Num z => z <? x
  | NaN => false
  end.

(** The effect on [chatComments] (the part that concerns the catch-up
    timestamp; the save to IndexedDB is not modelled). *)
Definition commentsEffect (initialLoadComplete : bool) (now : Z)
           (chatComments : list ChatComment) (st : Storage) : Storage :=
  if negb initialLoadComplete then st
  else
    fold_left
      (fun st c =>
         if gt_number (commentTimestamp c) (caughtUp now st)
         then setCaughtUpTimestamp (commentTimestamp c) st
         else st)
      chatComments st.

(** [handleClearAllComments]: the new storage and the dispatched action
    (the deletion of the IndexedDB database is not modelled). *)
Definition handleClearAllComments (now : Z) (st : Storage)
  : Storage * ChatCommentAction :=
  (setCaughtUpTimestamp now st, clear).
End CaughtUpStorage.

(* ------------------------------------------------------------------ *)
(** ** The inbound message handler                                     *)
(* ------------------------------------------------------------------ *)

Definition channelName : string := "neurosift.workshop".

(** What a run of the handler does to the outside: it dispatches an
    action to the reducer or publishes [{type: "history", comments}]. *)
Inductive effect : Type :=
| Dispatch (action : ChatCommentAction)
| Publish (channel : string) (comments : list ChatMessage).

(** How a run of the handler ends.  [IllTyped]: the payload holds, where
    the handler's type annotations expect a [ChatMessage] or a number, a
    value of another type, and what happens depends on the implicit
    conversions of JavaScript, which are outside this development: of
    such a run nothing is stated. *)
Inductive completion : Type :=
| Completed
| Threw (e : error)
| IllTyped.

Record run : Type := {
  emitted : list effect;
  status : completion
}.

(** [v === s] for a string literal [s]. *)
Definition strictEq (v : value) (s : string) : bool :=
  match v with
  | VStr s' => String.eqb s' s
  | _ => false
  end.

(** The number a primitive value is converted to by [>]; strings, arrays
    and objects are not covered. *)
Definition toNumber (v : value) : option number :=
  match v with
  | VUndefined => Some NaN
  | VNull => Some (Num 0)
  | VBool b => Some (Num (if b then 1 else 0))
  | VNum n => Some (Num n)
  | _ => None
  end.

(** A decoded value read at type [ChatMessage]. *)
Definition asChatMessage (v : value) : option ChatMessage :=
  match v with
  | VObj fields =>
      match lookup "systemSignature" fields, lookup "senderPublicKey" fields,
            lookup "timestamp" fields, lookup "messageJson" fields with
      | VStr sig, VStr key, VNum t, VStr json =>
          Some {| systemSignature := sig; senderPublicKey := key;
                  timestamp := t; messageJson := json |}
      | _, _, _, _ => None
      end
  | _ => None
  end.

Section Handler.
Variable JSON_parse : string -> option value.
(** [JSON.stringify(mm).length]. *)
Variable JSON_stringify_length : ChatMessage -> Z.

(** The inner [while] of the responder: from the comments not yet
    scanned, fill [toSend] until [size0] reaches 10000 or the comments
    are exhausted; returns [toSend] and the comments left to scan. *)
Fixpoint fillBatch (startTimestamp : number) (size0 : Z)
         (toSend : list ChatMessage) (rest : list ChatComment)
  : list ChatMessage * list ChatComment :=
  match rest with
  | [] => (toSend, [])
  | c :: rest' =>
      if size0 <? 10000 then
        let mm := chatMessage c in
        if gt_number (timestamp mm) startTimestamp
        then fillBatch startTimestamp (size0 + JSON_stringify_length mm)
                       (toSend ++ [mm]) rest'
        else fillBatch startTimestamp size0 toSend rest'
      else (toSend, rest)
  end.

(** The outer [while]: the batches published, in order. *)
Equations? sendBatches (startTimestamp : number) (rest : list ChatComment)
  : list (list ChatMessage) by wf (List.length rest) lt :=
  sendBatches startTimestamp [] := [];
  sendBatches startTimestamp (c :: rest')
    with inspect (fillBatch startTimestamp 0 [] (c :: rest')) := {
    | exist _ (toSend, rest'') filled =>
        match toSend with
        | [] => []
        | _ :: _ => [toSend]
        end ++ sendBatches startTimestamp rest'' }.
Proof.
  assert (shrink : forall scan size0 acc,
             (List.length (snd (fillBatch startTimestamp size0 acc scan))
              <= List.length scan)%nat).
  { intros scan; induction scan as [|d scan IH]; intros size0 acc; simpl.
    - apply le_n.
    - destruct (size0 <? 10000).
      + destruct (gt_number (timestamp (chatMessage d)) startTimestamp);
          apply Nat.le_le_succ_r, IH.
      + apply le_n. }
  apply Nat.lt_succ_r.
  change rest'' with (snd (toSend, rest'')). rewrite <- filled.
  destruct (gt_number (timestamp (chatMessage c)) startTimestamp); apply shrink.
Qed.

(** The [forEach] of the [history] branch, on the elements not yet
    visited. *)
Fixpoint ingestHistory (now : Z) (r : getItemResult) (comments : list value)
  : run :=
  match comments with
  | [] => {| emitted := []; status := Completed |}
  | c :: comments' =>
      let ttt := getCaughtUpTimestamp now r in
      match c with
      | VUndefined | VNull => {| emitted := []; status := Threw TypeError |}
      | _ =>
          match asChatMessage c with
          | None => {| emitted := []; status := IllTyped |}
          | Some c =>
              let next := ingestHistory now r comments' in
              if lt_number (timestamp c) ttt then next
              else {| emitted := Dispatch (add c) :: emitted next;
                      status := status next |}
          end
      end
  end.

(** The function given to [ephemeriChatClient.onMessage], with the
    [chatComments] of the render that registered it. *)
Definition onMessage (now : Z) (r : getItemResult)
           (chatComments : list ChatComment) (m : ChatMessage) : run :=
  match JSON_parse (messageJson m) with
  | None => {| emitted := []; status := Threw SyntaxError |}
  | Some msg =>
      match prop msg "type" with
      | Throws e => {| emitted := []; status := Threw e |}
      | Returns type =>
          if strictEq type "comment" then
            {| emitted := [Dispatch (add m)]; status := Completed |}
          else if strictEq type "request-history" then
            match prop msg "startTimestamp" with
            | Throws e => {| emitted := []; status := Threw e |}
            | Returns startTimestamp =>
                match toNumber startTimestamp with
                | None => {| emitted := []; status := IllTyped |}
                | Some startTimestamp =>
                    {| emitted := map (Publish channelName)
                                      (sendBatches startTimestamp chatComments);
                       status := Completed |}
                end
            end
          else if strictEq type "history" then
            match prop msg "comments" with
            | Returns (VArr comments) => ingestHistory now r comments
            | _ => {| emitted := []; status := Threw TypeError |}
            end
          else {| emitted := []; status := Completed |}
      end
  end.

(** The store after the reducer has run the actions a handler
    dispatched, in order. *)
Fixpoint dispatchAll (now : Z) (state : list ChatComment) (es : list effect)
  : outcome (list ChatComment) :=
  match es with
  | [] => Returns state
  | Dispatch a :: es' =>
      s' <- chatCommentsReducer JSON_parse now state a ;; dispatchAll now s' es'
  | Publish _ _ :: es' => dispatchAll now state es'
  end.
End Handler.

(* ------------------------------------------------------------------ *)
(** ** Concrete payloads                                               *)
(* ------------------------------------------------------------------ *)

(** The statements below hold for every [JSON.parse].  To run the
    component on concrete messages, this part writes JSON texts and
    gives a decoder that is right on them. *)

Definition quoteChar : ascii := "034"%char.
Definition backslash : ascii := "092"%char.

Fixpoint escape (s : string) : string :=
  match s with
  | EmptyString => EmptyString
  | String c s' =>
      if Ascii.eqb c quoteChar || Ascii.eqb c backslash
      then String backslash (String c (escape s'))
      else String c (escape s')
  end.

Definition quoted (s : string) : string :=
  String quoteChar (append (escape s) (String quoteChar EmptyString)).

(** The compact JSON text of a value ([undefined] does not occur in the
    values written here, and the numbers are below 10^21, which
    [JSON.stringify] prints in plain digits). *)
Fixpoint render (v : value) : string :=
  match v with
  | VUndefined | VNull => "null"
  | VBool b => if b then "true" else "false"
  | VNum n => decimalDigits n
  | VStr s => quoted s
  | VArr items =>
      append "["
        (append
           ((fix elements (l : list value) : string :=
               match l with
               | [] => EmptyString
               | [x] => render x
               | x :: l' => append (render x) (append "," (elements l'))
               end) items)
           "]")
  | VObj fields =>
      append "{"
        (append
           ((fix members (l : list (string * value)) : string :=
               match l with
               | [] => EmptyString
               | [(k, x)] => append (quoted k) (append ":" (render x))
               | (k, x) :: l' =>
                   append (quoted k)
                     (append ":" (append (render x) (append "," (members l'))))
               end) fields)
           "}")
  end.

(** A decoder that is right on the texts of the listed values: it maps
    the text of a listed value to the value.  It is used on these texts
    and on one text that is not JSON. *)
Definition decodeAmong (known : list value) (text : string) : option value :=
  find (fun v => String.eqb (render v) text) known.

Definition valueOfChatMessage (m : ChatMessage) : value :=
  VObj [("systemSignature", VStr (systemSignature m));
        ("senderPublicKey", VStr (senderPublicKey m));
        ("timestamp", VNum (timestamp m));
        ("messageJson", VStr (messageJson m))].

Definition commentPayload (user text : string) : value :=
  VObj [("type", VStr "comment"); ("userName", VStr user); ("comment", VStr text)].

Definition requestHistoryPayload (startTimestamp : Z) : value :=
  VObj [("type", VStr "request-history"); ("startTimestamp", VNum startTimestamp)].

Definition historyPayload (comments : list ChatMessage) : value :=
  VObj [("type", VStr "history"); ("comments", VArr (map valueOfChatMessage comments))].

Definition message (sig : string) (t : Z) (payload : value) : ChatMessage :=
  {| systemSignature := sig; senderPublicKey := "pk";
     timestamp := t; messageJson := render payload |}.

(** A clock value for the examples: 2024-01-01T00:00:00Z. *)
Definition now0 : Z := 1704067200000.

Definition pingPayload : value := VObj [("type", VStr "ping")].

Definition staleMessage : ChatMessage :=
  message "sig-o" (now0 - 2 * 86400000) (commentPayload "ann" "hello").

Definition strayRequest : ChatMessage :=
  message "sig-r" now0 (requestHistoryPayload 0).

Definition knownPayloads : list value :=
  [ commentPayload "ann" "hello";
    commentPayload "bob" "world";
    requestHistoryPayload 0;
    pingPayload;
    historyPayload [staleMessage; strayRequest] ].

Definition sampleParse : string -> option value := decodeAmong knownPayloads.

Definition sampleLength (m : ChatMessage) : Z :=
  Z.of_nat (String.length (render (valueOfChatMessage m))).

(* ------------------------------------------------------------------ *)
(** ** Notions used in the statements                                  *)
(* ------------------------------------------------------------------ *)

(** The comment that [case "add"] builds from a message and the two
    properties read from its decoded payload. *)
Definition commentOf (m : ChatMessage) (u c : value) : ChatComment :=
  {| commentId := systemSignature m;
     commentSenderPublicKey := senderPublicKey m;
     userName := u;
     commentTimestamp := timestamp m;
     comment := c;
     chatMessage := m |}.

(** Iterating the sequence yields non-decreasing timestamps. *)
Definition ascending (state : list ChatComment) : Prop :=
  Sorted Z.le (map commentTimestamp state).

(** The comments of a sequence that carry the timestamp [t], in order. *)
Definition tied (t : Z) (state : list ChatComment) : list ChatComment :=
  filter (fun c => commentTimestamp c =? t) state.

(** The sum of the serialized sizes of the messages of a batch. *)
Definition batchSize (len : ChatMessage -> Z) (batch : list ChatMessage) : Z :=
  fold_right (fun mm acc => len mm + acc) 0 batch.

(** The largest timestamp among [w] and the comments. *)
Definition maxTimestamp (w : Z) (state : list ChatComment) : Z :=
  fold_left (fun acc c => Z.max acc (commentTimestamp c)) state w.

(** The result of [getCaughtUpTimestamp()] just before a recorded call
    of [setCaughtUpTimestamp]. *)
Definition priorGet (now : Z) (call : SetCall) : number :=
  getCaughtUpTimestamp now (getItemReturns (itemBefore call)).

(** The call was given a timestamp above what was stored before. *)
Definition advances (now : Z) (call : SetCall) : Prop :=
  exists w, priorGet now call = Num w /\ w < given call.

(** The messages of a batch list, as the handler publishes them. *)
Definition dispatchAdd (c : ChatMessage) : effect := Dispatch (add c).

(** The test of the [history] branch: the message is not older than the
    catch-up timestamp. *)
Definition survives (now : Z) (r : getItemResult) (c : ChatMessage) : bool :=
  negb (lt_number (timestamp c) (getCaughtUpTimestamp now r)).

(** A batch as the responder builds it: the size of what it held was
    below 10000 when its last message was added. *)
Definition wellFilled (len : ChatMessage -> Z) (batch : list ChatMessage) : Prop :=
  exists front mm, batch = front ++ [mm] /\ batchSize len front < 10000.

(** The messages of the store that a request from [startTimestamp]
    asks for, in the order of the store. *)
Definition requested (startTimestamp : number) (chatComments : list ChatComment)
  : list ChatMessage :=
  filter (fun mm => gt_number (timestamp mm) startTimestamp)
         (map chatMessage chatComments).

(** Messages of the examples. *)
Definition boundaryMessage : ChatMessage :=
  message "sig-a" (now0 - expireTimeMsec) (commentPayload "ann" "hello").

Definition boundaryComment : ChatComment :=
  commentOf boundaryMessage (VStr "ann") (VStr "hello").

Definition expiredMessage : ChatMessage :=
  message "sig-e" (now0 - expireTimeMsec - 1) (commentPayload "ann" "hello").

Definition futureMessage : ChatMessage :=
  message "sig-b" (now0 + 1000000) (commentPayload "bob" "world").

Definition futureComment : ChatComment :=
  commentOf futureMessage (VStr "bob") (VStr "world").

Definition garbledMessage : ChatMessage :=
  {| systemSignature := "sig-g"; senderPublicKey := "pk";
     timestamp := now0; messageJson := "oops" |}.

Definition pingMessage : ChatMessage := message "sig-p" now0 pingPayload.

Definition requestMessage : ChatMessage :=
  message "sig-q" now0 (requestHistoryPayload 0).

Definition historyMessage : ChatMessage :=
  message "sig-h" now0 (historyPayload [staleMessage; strayRequest]).

Definition emptyStorage : Storage := {| item := None; calls := [] |}.

(** The exponent form for the examples: the engine prints 10^21 as
    [1e+21]; the examples print no other number of that size. *)
Definition sampleExponential (z : Z) : string := "1e+21".

(** The timestamps that [toString] prints in plain digits. *)
Definition plainDigits (t : Z) : Prop := Z.abs t < 10 ^ 21.

(** The storage after the effect has seen the future comment. *)
Definition storageAfterFuture : Storage :=
  commentsEffect sampleExponential true now0 [futureComment] emptyStorage.

(** The call of [setCaughtUpTimestamp] that a clear-all makes then, one
    millisecond later. *)
Definition clearCall : SetCall :=
  {| itemBefore := item storageAfterFuture; given := now0 + 1 |}.

(* ------------------------------------------------------------------ *)
(** ** The start-up effect and the comment input                       *)
(* ------------------------------------------------------------------ *)

(** What the component publishes besides history batches. *)
Inductive published : Type :=
| PublishComment (channel : string) (user text : string)
| PublishRequestHistory (channel : string) (startTimestamp : number).

(** The two [useRef] flags of the component. *)
Record Refs : Type := {
  loadComplete : bool;
  sentRequestHistory : bool
}.

Definition initialRefs : Refs :=
  {| loadComplete := false; sentRequestHistory := false |}.

Inductive startupEffect : Type :=
| StartupDispatch (action : ChatCommentAction)
| StartupPublish (p : published)
| StartupLogError.

(** One run of the start-up effect, from the moment the load from
    IndexedDB settles: [loaded] is the array it resolved to, or [None]
    when it rejected; [canceled] is the flag at that moment; [client]
    tells whether [ephemeriChatClient] is set. *)
Definition startup (client : bool) (loaded : option (list ChatMessage))
           (canceled : bool) (now : Z) (r : getItemResult) (refs : Refs)
  : list startupEffect * Refs :=
  if negb client then ([], refs)
  else
    let afterLoad (first : list startupEffect) :=
      (first ++
         (if negb (sentRequestHistory refs)
          then [StartupPublish
                  (PublishRequestHistory channelName (getCaughtUpTimestamp now r))]
          else []),
       {| loadComplete := true; sentRequestHistory := true |}) in
    match loaded with
    | Some commentChatMessages =>
        if canceled then ([], refs)
        else afterLoad [StartupDispatch (addMultiple commentChatMessages)]
    | None => afterLoad [StartupLogError]
    end.

(** The runs of the start-up effect of one session, one after the
    other, on the same flags. *)
Fixpoint startups
         (runs : list (option (list ChatMessage) * bool * Z * getItemResult))
         (refs : Refs) : list startupEffect * Refs :=
  match runs with
  | [] => ([], refs)
  | (loaded, canceled, now, r) :: runs' =>
      let '(es, refs') := startup true loaded canceled now r refs in
      let '(es', refs'') := startups runs' refs' in
      (es ++ es', refs'')
  end.

Definition isRequest (e : startupEffect) : bool :=
  match e with
  | StartupPublish (PublishRequestHistory _ _) => true
  | _ => false
  end.

(** [handleComment]. *)
Definition handleComment (client : bool) (user : string) (text : string)
  : list published :=
  if negb client then [] else [PublishComment channelName user text].

(** The text is ASCII: every character is one unit of [length], and
    the white space is the ASCII white space. *)
Fixpoint asciiOnly (s : string) : bool :=
  match s with
  | EmptyString => true
  | String c s' => (nat_of_ascii c <? 128)%nat && asciiOnly s'
  end.

(** [String.prototype.trim], on ASCII text. *)
Fixpoint trimEnd (s : string) : string :=
  match s with
  | EmptyString => EmptyString
  | String c s' =>
      match trimEnd s' with
      | EmptyString => if isWhiteSpace c then EmptyString else String c EmptyString
      | t => String c t
      end
  end.

Definition trim (s : string) : string := trimEnd (trimStart s).

(** What [handleKeyDown] of the input bar does, on ASCII text: the
    alert shown, the comment given to [onComment], and the value left
    in the input. *)
Record KeyDown : Type := {
  alerted : option string;
  commented : option string;
  valueAfter : string
}.

Definition handleKeyDown (key : string) (value : string) : KeyDown :=
  if String.eqb key "Enter" then
    let commentString := trim value in
    if 1000 <? Z.of_nat (String.length commentString)
    then {| alerted := Some "Comment is too long"; commented := None;
            valueAfter := value |}
    else {| alerted := None; commented := Some commentString;
            valueAfter := EmptyString |}
  else {| alerted := None; commented := None; valueAfter := value |}.

(* ------------------------------------------------------------------ *)
(** ** Colours, links, the key pair and the user name                  *)
(* ------------------------------------------------------------------ *)

(** [s.split("").reduce((acc, c) => acc + c.charCodeAt(0), 0)]. *)
Definition charCodeSum (s : string) : Z :=
  fold_left (fun acc c => acc + Z.of_nat (nat_of_ascii c))
            (list_ascii_of_string s) 0.

(** The three numbers of [colorForString]; [%] is the remainder of the
    truncated division. *)
Definition colorChannels (s : string) : Z * Z * Z :=
  let hash := charCodeSum s in
  (Z.rem hash 200, Z.rem (hash * 2) 200, Z.rem (hash * 3) 200).

Definition colorForString (Number_exponential : Z -> string) (s : string)
  : string :=
  let '(r, g, b) := colorChannels s in
  append "rgb("
    (append (Number_toString Number_exponential r)
       (append "," (append (Number_toString Number_exponential g)
          (append "," (append (Number_toString Number_exponential b) ")"))))).

(** [comment.split(" ")]. *)
Fixpoint splitSpaces (s : string) : list string :=
  match s with
  | EmptyString => [EmptyString]
  | String c s' =>
      if Ascii.eqb c " " then EmptyString :: splitSpaces s'
      else
        match splitSpaces s' with
        | part :: parts => String c part :: parts
        | [] => [String c EmptyString]
        end
  end.

(** What [CommentDisplay] renders for one part: the text before it (a
    space, except for the first part) and the part, as a link or as
    text. *)
Inductive rendered : Type :=
| Link (before href text : string)
| Text (before text : string).

Definition renderPart (i : nat) (part : string) : rendered :=
  let before := if (0 <? i)%nat then " " else EmptyString in
  if String.prefix "http://" part || String.prefix "https://" part
  then Link before part part
  else Text before part.

Fixpoint renderParts (i : nat) (parts : list string) : list rendered :=
  match parts with
  | [] => []
  | part :: parts' => renderPart i part :: renderParts (S i) parts'
  end.

Definition CommentDisplay (text : string) : list rendered :=
  renderParts 0 (splitSpaces text).

(** The text a reader sees. *)
Definition textOf (x : rendered) : string :=
  match x with
  | Link before _ text => append before text
  | Text before text => append before text
  end.

Definition textContent (xs : list rendered) : string :=
  fold_right (fun x acc => append (textOf x) acc) EmptyString xs.

(** The two items of the key pair in [localStorage]. *)
Record KeyStorage : Type := {
  publicKeyItem : option string;
  privateKeyItem : option string
}.

Record KeyPair : Type := {
  publicKey : string;
  privateKey : string
}.

(** [getPersistentKeyPair].  [isValidKeyPair] is the imported check and
    [generated] the pair that [generateKeyPair] returns if it is called;
    the result is the pair returned and the storage left. *)
Definition getPersistentKeyPair (isValidKeyPair : string -> string -> bool)
           (generated : KeyPair) (ls : KeyStorage) : KeyPair * KeyStorage :=
  let fresh :=
    (generated,
     {| publicKeyItem := Some (publicKey generated);
        privateKeyItem := Some (privateKey generated) |}) in
  match publicKeyItem ls, privateKeyItem ls with
  | Some pub, Some priv =>
      if truthy (Some pub) && truthy (Some priv) then
        if isValidKeyPair pub priv
        then ({| publicKey := pub; privateKey := priv |}, ls)
        else fresh
      else fresh
  | _, _ => fresh
  end.

(** The initial user name,
    [localStorage.getItem("workshop-chat-user-name") || "Anonymous"]. *)
Definition initialUserName (stored : option string) : string :=
  match stored with
  | Some (String c s) => String c s
  | _ => "Anonymous"
  end.

(** The click on the user name: [answer] is what [prompt] returned
    ([None] for [null]); the state is the user name and the stored
    item. *)
Definition changeUserName (answer : option string) (st : string * option string)
  : string * option string :=
  match answer with
  | Some (String c s) => (String c s, Some (String c s))
  | _ => st
  end.

(** A run of the start-up effect that gets past the load: the load
    rejected, or it resolved and the run was not canceled. *)
Definition pastLoad (run : option (list ChatMessage) * bool * Z * getItemResult)
  : bool :=
  match run with
  | (Some _, true, _, _) => false
  | _ => true
  end.

(** The arrays that the runs of a session give to [addMultiple]. *)
Fixpoint loadedArrays
         (runs : list (option (list ChatMessage) * bool * Z * getItemResult))
  : list (list ChatMessage) :=
  match runs with
  | [] => []
  | (Some ms, false, _, _) :: runs' => ms :: loadedArrays runs'
  | _ :: runs' => loadedArrays runs'
  end.

Definition dispatchedBy (e : startupEffect) : list ChatCommentAction :=
  match e with
  | StartupDispatch a => [a]
  | _ => []
  end.

(** The input bar wired to [handleComment], as the component renders
    it: what a key press publishes. *)
Definition submitComment (client : bool) (user : string) (key value : string)
  : list published :=
  match commented (handleKeyDown key value) with
  | Some text => handleComment client user text
  | None => []
  end.

(** The number of spaces of a text. *)
Fixpoint countSpaces (s : string) : nat :=
  match s with
  | EmptyString => 0%nat
  | String c s' => ((if Ascii.eqb c " " then 1 else 0) + countSpaces s')%nat
  end.

Definition startsWithHttp (part : string) : bool :=
  String.prefix "http://" part || String.prefix "https://" part.

(** The sizes of the batches but the last reach the threshold. *)
Definition fullButLast (len : ChatMessage -> Z) (batches : list (list ChatMessage))
  : Prop :=
  forall before batch after,
    batches = before ++ batch :: after ->
    after <> [] ->
    10000 <= batchSize len batch.

(** A comment agrees with the message it was built from. *)
Definition fromItsMessage (c : ChatComment) : Prop :=
  commentId c = systemSignature (chatMessage c)
  /\ commentSenderPublicKey c = senderPublicKey (chatMessage c)
  /\ commentTimestamp c = timestamp (chatMessage c).

(** More payloads for the examples, and a decoder that also knows
    them. *)
Definition bareRequestPayload : value :=
  VObj [("type", VStr "request-history")].

Definition nullRequestPayload : value :=
  VObj [("type", VStr "request-history"); ("startTimestamp", VNull)].

Definition scalarHistoryPayload : value :=
  VObj [("type", VStr "history"); ("comments", VNum 5)].

Definition brokenHistoryPayload : value :=
  VObj [("type", VStr "history");
        ("comments", VArr [valueOfChatMessage strayRequest; VNull;
                           valueOfChatMessage boundaryMessage])].

Definition widerParse : string -> option value :=
  decodeAmong (VNull :: bareRequestPayload :: nullRequestPayload
                 :: scalarHistoryPayload :: brokenHistoryPayload
                 :: knownPayloads).

Definition nullMessage : ChatMessage := message "sig-n" now0 VNull.

Definition bareRequestMessage : ChatMessage :=
  message "sig-q1" now0 bareRequestPayload.

Definition nullRequestMessage : ChatMessage :=
  message "sig-q2" now0 nullRequestPayload.

Definition scalarHistoryMessage : ChatMessage :=
  message "sig-h1" now0 scalarHistoryPayload.

Definition brokenHistoryMessage : ChatMessage :=
  message "sig-h2" now0 brokenHistoryPayload.

Definition staleComment : ChatComment :=
  commentOf staleMessage (VStr "ann") (VStr "hello").

Definition badStorage : Storage := {| item := Some "abc"; calls := [] |}.

Definition sampleKeys : KeyPair := {| publicKey := "pk"; privateKey := "sk" |}.

Definition otherKeys : KeyPair := {| publicKey := "pk2"; privateKey := "sk2" |}.

Definition emptyKeys : KeyStorage :=
  {| publicKeyItem := None; privateKeyItem := None |}.

(* ------------------------------------------------------------------ *)
(** ** The sort                                                        *)
(* ------------------------------------------------------------------ *)

Section SortFacts.
Context {A : Type} (key : A -> Z) (compareFn : A -> A -> Z).
Hypothesis compare_key : forall a b, compareFn a b = key a - key b.

Lemma insert_permutation x l : Permutation (insert compareFn x l) (x :: l).
Proof.
  induction l as [|y l IH]; simpl.
  - apply Permutation_refl.
  - destruct (compareFn x y <=? 0).
    + apply Permutation_refl.
    + apply perm_trans with (y :: x :: l).
      * apply perm_skip, IH.
      * apply perm_swap.
Qed.

Lemma Array_sort_permutation l : Permutation (Array_sort compareFn l) l.
Proof.
  induction l as [|x l IH]; simpl.
  - apply perm_nil.
  - eapply perm_trans; [apply insert_permutation | apply perm_skip, IH].
Qed.

Lemma insert_head_rel x y l :
  key y <= key x ->
  HdRel Z.le (key y) (map key l) ->
  HdRel Z.le (key y) (map key (insert compareFn x l)).
Proof.
  intros Hyx Hl. destruct l as [|z l]; simpl.
  - constructor. exact Hyx.
  - destruct (compareFn x z <=? 0); simpl.
    + constructor. exact Hyx.
    + constructor. inversion Hl; subst. assumption.
Qed.

Lemma insert_sorted x l :
  Sorted Z.le (map key l) -> Sorted Z.le (map key (insert compareFn x l)).
Proof.
  induction l as [|y l IH]; simpl; intros Hs.
  - repeat constructor.
  - destruct (compareFn x y <=? 0) eqn:E; simpl.
    + constructor; [exact Hs|]. constructor.
      apply Z.leb_le in E. rewrite compare_key in E. lia.
    + inversion Hs as [|? ? Hs' Hhd]; subst.
      constructor.
      * apply IH, Hs'.
      * apply insert_head_rel; [|exact Hhd].
        apply Z.leb_gt in E. rewrite compare_key in E. lia.
Qed.

Lemma Array_sort_sorted l : Sorted Z.le (map key (Array_sort compareFn l)).
Proof.
  induction l as [|x l IH]; simpl.
  - constructor.
  - apply insert_sorted, IH.
Qed.

(** The elements of one key keep their order: the sort is stable. *)
Lemma insert_stable t x l :
  filter (fun a => key a =? t) (insert compareFn x l)
  = filter (fun a => key a =? t) (x :: l).
Proof.
  induction l as [|y l IH]; simpl.
  - reflexivity.
  - destruct (compareFn x y <=? 0) eqn:E; simpl.
    + reflexivity.
    + simpl in IH. rewrite IH.
      apply Z.leb_gt in E. rewrite compare_key in E.
      destruct (key x =? t) eqn:Ex, (key y =? t) eqn:Ey; try reflexivity.
      apply Z.eqb_eq in Ex, Ey. lia.
Qed.

Lemma Array_sort_stable t l :
  filter (fun a => key a =? t) (Array_sort compareFn l)
  = filter (fun a => key a =? t) l.
Proof.
  induction l as [|x l IH]; simpl.
  - reflexivity.
  - rewrite insert_stable. simpl. rewrite IH. reflexivity.
Qed.

(** An array that is already in order is left as it is. *)
Lemma Array_sort_of_sorted l :
  Sorted Z.le (map key l) -> Array_sort compareFn l = l.
Proof.
  induction l as [|x l IH]; simpl; intros Hs.
  - reflexivity.
  - inversion Hs as [|? ? Hs' Hhd]; subst. rewrite (IH Hs').
    destruct l as [|y l]; simpl.
    + reflexivity.
    + inversion Hhd; subst.
      replace (compareFn x y <=? 0) with true; [reflexivity|].
      symmetry. apply Z.leb_le. rewrite compare_key. lia.
Qed.

(** Two arrays in order by key, with the same elements in the same
    order under each key, are equal: the result of a stable sort is
    determined. *)
Lemma stable_sort_unique l1 :
  forall l2,
    Sorted Z.le (map key l1) -> Sorted Z.le (map key l2) ->
    (forall t, filter (fun a => key a =? t) l1 = filter (fun a => key a =? t) l2) ->
    l1 = l2.
Proof.
  induction l1 as [|x l1 IH]; intros l2 S1 S2 Heq.
  - destruct l2 as [|y l2]; [reflexivity|].
    specialize (Heq (key y)). simpl in Heq. rewrite Z.eqb_refl in Heq.
    discriminate.
  - destruct l2 as [|y l2].
    + specialize (Heq (key x)). simpl in Heq. rewrite Z.eqb_refl in Heq.
      discriminate.
    + apply Sorted_StronglySorted in S1; [|intros a b c; apply Z.le_trans].
      apply Sorted_StronglySorted in S2; [|intros a b c; apply Z.le_trans].
      simpl in S1, S2.
      inversion S1 as [|? ? S1' F1]; inversion S2 as [|? ? S2' F2]; subst.
      assert (Hxy : key x = key y).
      { assert (Hx : In x (filter (fun a => key a =? key x) (y :: l2))).
        { rewrite <- Heq. simpl. rewrite Z.eqb_refl. left. reflexivity. }
        assert (Hy : In y (filter (fun a => key a =? key y) (x :: l1))).
        { rewrite Heq. simpl. rewrite Z.eqb_refl. left. reflexivity. }
        apply filter_In in Hx. apply filter_In in Hy.
        destruct Hx as [[Hx|Hx] _]; [subst; reflexivity|].
        destruct Hy as [[Hy|Hy] _]; [subst; reflexivity|].
        rewrite Forall_forall in F1, F2.
        specialize (F1 (key y) (in_map key _ _ Hy)).
        specialize (F2 (key x) (in_map key _ _ Hx)). lia. }
      assert (x = y).
      { specialize (Heq (key x)). simpl in Heq.
        rewrite <- Hxy in Heq. rewrite Z.eqb_refl in Heq. congruence. }
      subst y. f_equal.
      apply IH.
      * apply StronglySorted_Sorted, S1'.
      * apply StronglySorted_Sorted, S2'.
      * intros t. specialize (Heq t). simpl in Heq.
        destruct (key x =? t); congruence.
Qed.
End SortFacts.

(* ------------------------------------------------------------------ *)
(** ** The reducer: what [add] does                                    *)
(* ------------------------------------------------------------------ *)

Lemma byTimestamp_key a b : byTimestamp a b = commentTimestamp a - commentTimestamp b.
Proof. reflexivity. Qed.

Lemma find_id_none id state :
  find (fun c => String.eqb (commentId c) id) state = None
  <-> ~ In id (map commentId state).
Proof.
  induction state as [|c state IH]; simpl.
  - split; [intros _ []|reflexivity].
  - destruct (String.eqb (commentId c) id) eqn:E.
    + apply String.eqb_eq in E. split; [discriminate|]. intros H.
      exfalso. apply H. left. exact E.
    + apply String.eqb_neq in E. rewrite IH. split.
      * intros H [H'|H']; [exact (E H')|exact (H H')].
      * intros H H'. apply H. right. exact H'.
Qed.

Section ReducerFacts.
Variable JSON_parse : string -> option value.

Lemma reduceAdd_expired now state m :
  timestamp m < now - expireTimeMsec ->
  reduceAdd JSON_parse now state m = Returns state.
Proof.
  intros H. unfold reduceAdd.
  apply Z.ltb_lt in H. rewrite H. reflexivity.
Qed.

Lemma reduceAdd_accepts now state m msg u c :
  now - expireTimeMsec <= timestamp m ->
  JSON_parse (messageJson m) = Some msg ->
  prop msg "userName" = Returns u ->
  prop msg "comment" = Returns c ->
  ~ In (systemSignature m) (map commentId state) ->
  reduceAdd JSON_parse now state m
  = Returns (Array_sort byTimestamp (state ++ [commentOf m u c])).
Proof.
  intros Hts Hp Hu Hc Hnew. unfold reduceAdd.
  apply Z.ltb_ge in Hts. rewrite Hts, Hp, Hu, Hc. simpl.
  apply find_id_none in Hnew. rewrite Hnew. reflexivity.
Qed.

Lemma reduceAdd_duplicate now state m msg u c :
  JSON_parse (messageJson m) = Some msg ->
  prop msg "userName" = Returns u ->
  prop msg "comment" = Returns c ->
  In (systemSignature m) (map commentId state) ->
  reduceAdd JSON_parse now state m = Returns state.
Proof.
  intros Hp Hu Hc Hold. unfold reduceAdd.
  destruct (timestamp m <? now - expireTimeMsec); [reflexivity|].
  rewrite Hp, Hu, Hc. simpl.
  destruct (find _ state) eqn:F; [reflexivity|].
  apply find_id_none in F. contradiction.
Qed.

(** The two ways in which [add] returns. *)
Lemma reduceAdd_returns now state m state' :
  reduceAdd JSON_parse now state m = Returns state' ->
  state' = state
  \/ exists msg u c,
      now - expireTimeMsec <= timestamp m
      /\ JSON_parse (messageJson m) = Some msg
      /\ prop msg "userName" = Returns u
      /\ prop msg "comment" = Returns c
      /\ ~ In (systemSignature m) (map commentId state)
      /\ state' = Array_sort byTimestamp (state ++ [commentOf m u c]).
Proof.
  unfold reduceAdd.
  destruct (timestamp m <? now - expireTimeMsec) eqn:Hts;
    [intros [= <-]; left; reflexivity|].
  destruct (JSON_parse (messageJson m)) as [msg|] eqn:Hp; [|discriminate].
  destruct (prop msg "userName") as [u|] eqn:Hu; [|discriminate].
  destruct (prop msg "comment") as [c|] eqn:Hc; [|discriminate].
  simpl.
  destruct (find _ state) eqn:F; intros [= <-]; [left; reflexivity|].
  right. exists msg, u, c. apply Z.ltb_ge in Hts. apply find_id_none in F.
  repeat split; assumption.
Qed.

Lemma sorted_permutation state c :
  Permutation (Array_sort byTimestamp (state ++ [c])) (c :: state).
Proof.
  eapply perm_trans; [apply Array_sort_permutation|].
  apply Permutation_sym, Permutation_cons_append.
Qed.

Lemma reduceAdd_no_duplicate now state m state' :
  NoDup (map commentId state) ->
  reduceAdd JSON_parse now state m = Returns state' ->
  NoDup (map commentId state').
Proof.
  intros Hnd H. apply reduceAdd_returns in H.
  destruct H as [->|(msg & u & c & _ & _ & _ & _ & Hnew & ->)]; [exact Hnd|].
  eapply Permutation_NoDup.
  - apply Permutation_sym, Permutation_map, sorted_permutation.
  - simpl. constructor; assumption.
Qed.

Lemma reduceAdd_ascending now state m state' :
  ascending state ->
  reduceAdd JSON_parse now state m = Returns state' ->
  ascending state'.
Proof.
  intros Hs H. apply reduceAdd_returns in H.
  destruct H as [->|(msg & u & c & _ & _ & _ & _ & _ & ->)]; [exact Hs|].
  apply (Array_sort_sorted commentTimestamp byTimestamp byTimestamp_key).
Qed.

(** A property that [add] and [clear] keep holds of every state. *)
Lemma reachable_invariant (P : list ChatComment -> Prop) :
  P [] ->
  (forall now state m state',
      P state -> reduceAdd JSON_parse now state m = Returns state' -> P state') ->
  forall state, reachable JSON_parse state -> P state.
Proof.
  intros Hnil Hadd state Hr.
  induction Hr as [|now state action state' _ IH Hstep]; [exact Hnil|].
  destruct action as [m|ms|]; simpl in Hstep.
  - eapply Hadd; eassumption.
  - clear - Hadd IH Hstep. revert state IH Hstep.
    induction ms as [|m ms IHms]; simpl; intros state IH Hstep.
    + injection Hstep as <-. exact IH.
    + destruct (reduceAdd JSON_parse now state m) as [s1|] eqn:H1;
        [|discriminate].
      simpl in Hstep. eapply IHms; [|exact Hstep].
      eapply Hadd; eassumption.
  - injection Hstep as <-. exact Hnil.
Qed.
End ReducerFacts.

(* ------------------------------------------------------------------ *)
(** ** The catch-up timestamp: writing and reading back                *)
(* ------------------------------------------------------------------ *)

Import Decimal.

Lemma parseDigits_step c k s acc :
  digitValue c = Some k -> k < 10 ->
  parseDigits 10 (String c s) acc
  = parseDigits 10 s (Some (10 * match acc with Some a => a | None => 0 end + k)).
Proof.
  intros Hc Hk. cbn [parseDigits]. rewrite Hc.
  apply Z.ltb_lt in Hk. rewrite Hk. reflexivity.
Qed.

Ltac read_digit k :=
  rewrite (parseDigits_step _ k) by (reflexivity || lia).

Lemma parseDigits_acc d p :
  parseDigits 10 (NilEmpty.string_of_uint d) (Some (Zpos p))
  = Some (Zpos (Pos.of_uint_acc d p)).
Proof.
  revert p. induction d; intros p; cbn [NilEmpty.string_of_uint Pos.of_uint_acc].
  - reflexivity.
  - read_digit 0. rewrite <- IHd. do 2 f_equal; try lia.
  - read_digit 1. rewrite <- IHd. do 2 f_equal; try lia.
  - read_digit 2. rewrite <- IHd. do 2 f_equal; try lia.
  - read_digit 3. rewrite <- IHd. do 2 f_equal; try lia.
  - read_digit 4. rewrite <- IHd. do 2 f_equal; try lia.
  - read_digit 5. rewrite <- IHd. do 2 f_equal; try lia.
  - read_digit 6. rewrite <- IHd. do 2 f_equal; try lia.
  - read_digit 7. rewrite <- IHd. do 2 f_equal; try lia.
  - read_digit 8. rewrite <- IHd. do 2 f_equal; try lia.
  - read_digit 9. rewrite <- IHd. do 2 f_equal; try lia.
Qed.

(** Reading the digits of a decimal numeral gives its value. *)
Lemma parseDigits_uint d :
  d <> Nil ->
  forall acc, acc = None \/ acc = Some 0 ->
  parseDigits 10 (NilEmpty.string_of_uint d) acc = Some (Z.of_N (Pos.of_uint d)).
Proof.
  induction d; intros Hd acc Hacc; [contradiction|..];
    cbn [NilEmpty.string_of_uint Pos.of_uint].
  - read_digit 0.
    replace (10 * match acc with Some a => a | None => 0 end + 0) with 0
      by (destruct Hacc; subst; reflexivity).
    destruct d; try (apply IHd; [discriminate|right; reflexivity]).
    reflexivity.
  - read_digit 1. replace (10 * _ + 1) with 1 by (destruct Hacc; subst; reflexivity).
    apply parseDigits_acc.
  - read_digit 2. replace (10 * _ + 2) with 2 by (destruct Hacc; subst; reflexivity).
    apply parseDigits_acc.
  - read_digit 3. replace (10 * _ + 3) with 3 by (destruct Hacc; subst; reflexivity).
    apply parseDigits_acc.
  - read_digit 4. replace (10 * _ + 4) with 4 by (destruct Hacc; subst; reflexivity).
    apply parseDigits_acc.
  - read_digit 5. replace (10 * _ + 5) with 5 by (destruct Hacc; subst; reflexivity).
    apply parseDigits_acc.
  - read_digit 6. replace (10 * _ + 6) with 6 by (destruct Hacc; subst; reflexivity).
    apply parseDigits_acc.
  - read_digit 7. replace (10 * _ + 7) with 7 by (destruct Hacc; subst; reflexivity).
    apply parseDigits_acc.
  - read_digit 8. replace (10 * _ + 8) with 8 by (destruct Hacc; subst; reflexivity).
    apply parseDigits_acc.
  - read_digit 9. replace (10 * _ + 9) with 9 by (destruct Hacc; subst; reflexivity).
    apply parseDigits_acc.
Qed.

(** A decimal numeral has no white space, no sign and no [0x] in front. *)
Lemma numeral_plain d :
  d <> Nil ->
  trimStart (NilEmpty.string_of_uint d) = NilEmpty.string_of_uint d
  /\ stripSign (NilEmpty.string_of_uint d) = (1, NilEmpty.string_of_uint d)
  /\ stripPrefix (NilEmpty.string_of_uint d) = (10, NilEmpty.string_of_uint d).
Proof.
  intros Hd. destruct d; [contradiction|..];
    (repeat split; try reflexivity).
  destruct d; reflexivity.
Qed.

Lemma parseInt_numeral d :
  d <> Nil ->
  parseInt (NilEmpty.string_of_uint d) = Num (Z.of_N (Pos.of_uint d)).
Proof.
  intros Hd. destruct (numeral_plain d Hd) as (Ht & Hs & Hp).
  unfold parseInt. rewrite Ht, Hs, Hp.
  rewrite (parseDigits_uint d Hd None) by (left; reflexivity).
  f_equal; lia.
Qed.

Lemma parseInt_negative_numeral d :
  d <> Nil ->
  parseInt (String "-" (NilEmpty.string_of_uint d)) = Num (- Z.of_N (Pos.of_uint d)).
Proof.
  intros Hd. destruct (numeral_plain d Hd) as (_ & _ & Hp).
  unfold parseInt. cbn [trimStart]. 
  change (isWhiteSpace "-") with false. cbn iota. cbn [stripSign].
  rewrite Hp.
  rewrite (parseDigits_uint d Hd None) by (left; reflexivity).
  f_equal; lia.
Qed.

(** The decimal digits of an integer are read back by [parseInt]. *)
Lemma parseInt_decimalDigits z : parseInt (decimalDigits z) = Num z.
Proof.
  unfold decimalDigits. destruct z as [|p|p]; cbn [Z.to_int NilEmpty.string_of_int].
  - reflexivity.
  - rewrite parseInt_numeral by apply DecimalPos.Unsigned.to_uint_nonnil.
    rewrite DecimalPos.Unsigned.of_to. reflexivity.
  - rewrite parseInt_negative_numeral by apply DecimalPos.Unsigned.to_uint_nonnil.
    rewrite DecimalPos.Unsigned.of_to. reflexivity.
Qed.

Lemma decimalDigits_truthy z : truthy (Some (decimalDigits z)) = true.
Proof.
  unfold decimalDigits. destruct z as [|p|p]; cbn [Z.to_int NilEmpty.string_of_int].
  - reflexivity.
  - pose proof (DecimalPos.Unsigned.to_uint_nonnil p) as H.
    destruct (Pos.to_uint p); [contradiction|..]; reflexivity.
  - reflexivity.
Qed.

Lemma toString_plain Number_exponential t :
  plainDigits t -> Number_toString Number_exponential t = decimalDigits t.
Proof.
  unfold plainDigits, Number_toString. intros H.
  apply Z.ltb_lt in H. rewrite H. reflexivity.
Qed.

(** What [setCaughtUpTimestamp] writes for a timestamp below 10^21,
    [getCaughtUpTimestamp] reads back. *)
Lemma caughtUp_after_set Number_exponential now t st :
  plainDigits t ->
  caughtUp now (setCaughtUpTimestamp Number_exponential t st) = Num t.
Proof.
  intros Ht.
  unfold caughtUp, setCaughtUpTimestamp, getCaughtUpTimestamp. cbn [item].
  rewrite (toString_plain _ t Ht), decimalDigits_truthy.
  apply parseInt_decimalDigits.
Qed.

Lemma maxTimestamp_bounds state :
  forall w,
    w <= maxTimestamp w state
    /\ forall c, In c state -> commentTimestamp c <= maxTimestamp w state.
Proof.
  unfold maxTimestamp.
  induction state as [|d state IH]; intros w; simpl.
  - split; [lia|intros c []].
  - destruct (IH (Z.max w (commentTimestamp d))) as [Hw Hc]. split; [lia|].
    intros c [<-|Hin]; [lia|apply Hc, Hin].
Qed.

Lemma maxTimestamp_attained state :
  forall w,
    maxTimestamp w state = w
    \/ exists c, In c state /\ maxTimestamp w state = commentTimestamp c.
Proof.
  unfold maxTimestamp.
  induction state as [|d state IH]; intros w; simpl.
  - left. reflexivity.
  - destruct (IH (Z.max w (commentTimestamp d))) as [Heq|(c & Hin & Heq)].
    + rewrite Heq. destruct (Z.max_spec w (commentTimestamp d)) as [[_ ->]|[_ ->]].
      * right. exists d. split; [left|]; reflexivity.
      * left. reflexivity.
    + right. exists c. split; [right; exact Hin|exact Heq].
Qed.

(** The loop of the effect: every call of [setCaughtUpTimestamp] it
    makes goes upward. *)
Lemma effect_calls Number_exponential now chatComments :
  forall st,
    exists new,
      calls (commentsEffect Number_exponential true now chatComments st)
      = calls st ++ new
      /\ Forall (advances now) new.
Proof.
  unfold commentsEffect. cbn [negb].
  induction chatComments as [|c cs IH]; intros st; cbn [fold_left].
  - exists []. rewrite app_nil_r. split; constructor.
  - destruct (caughtUp now st) as [w|] eqn:Hw; cbn [gt_number]; [|apply IH].
    destruct (Z.ltb_spec w (commentTimestamp c)) as [Hlt|Hge]; [|apply IH].
    destruct (IH (setCaughtUpTimestamp Number_exponential (commentTimestamp c) st))
      as (new & Hcalls & Hnew).
    exists ({| itemBefore := item st; given := commentTimestamp c |} :: new).
    split.
    + rewrite Hcalls. cbn [setCaughtUpTimestamp calls].
      rewrite <- app_assoc. reflexivity.
    + constructor; [|exact Hnew]. exists w. split; [exact Hw|exact Hlt].
Qed.

(** The loop of the effect, on timestamps below 10^21: it leaves a
    numeric catch-up timestamp at the largest timestamp seen. *)
Lemma effect_loop Number_exponential now chatComments :
  forall st w,
    caughtUp now st = Num w ->
    Forall (fun c => plainDigits (commentTimestamp c)) chatComments ->
    caughtUp now (commentsEffect Number_exponential true now chatComments st)
    = Num (maxTimestamp w chatComments).
Proof.
  unfold commentsEffect. cbn [negb].
  induction chatComments as [|c cs IH]; intros st w Hw Hplain; cbn [fold_left].
  - exact Hw.
  - inversion Hplain as [|? ? Hc Hcs]; subst.
    rewrite Hw. cbn [gt_number]. unfold maxTimestamp. cbn [fold_left].
    fold (maxTimestamp (Z.max w (commentTimestamp c)) cs).
    destruct (Z.ltb_spec w (commentTimestamp c)) as [Hlt|Hge].
    + replace (Z.max w (commentTimestamp c)) with (commentTimestamp c) by lia.
      apply IH; [apply caughtUp_after_set, Hc|exact Hcs].
    + replace (Z.max w (commentTimestamp c)) with w by lia.
      apply IH; assumption.
Qed.

(* ------------------------------------------------------------------ *)
(** ** The comment store                                               *)
(* ------------------------------------------------------------------ *)

Section StoreProperties.
Variable JSON_parse : string -> option value.
Variable Number_exponential : Z -> string.

Lemma id_in_sorted state c :
  In (commentId c) (map commentId (Array_sort byTimestamp (state ++ [c]))).
Proof.
  apply in_map.
  eapply Permutation_in; [apply Permutation_sym, sorted_permutation|].
  left. reflexivity.
Qed.

(** C1.  Adding the same message twice (the second time not earlier than
    the first) gives the result of adding it once, and no state of the
    store holds two comments with the same [commentId]. *)
Theorem add_idempotent_unique_ids :
  (forall now1 now2 state m,
      now1 <= now2 ->
      (s' <- chatCommentsReducer JSON_parse now1 state (add m) ;;
       chatCommentsReducer JSON_parse now2 s' (add m))
      = chatCommentsReducer JSON_parse now1 state (add m))
  /\ (forall state,
         reachable JSON_parse state -> NoDup (map commentId state)).
Proof.
  split.
  - intros now1 now2 state m Hclock. cbn [chatCommentsReducer].
    destruct (Z.ltb_spec (timestamp m) (now1 - expireTimeMsec)) as [Hold|Hfresh].
    { rewrite (reduceAdd_expired _ now1) by exact Hold. cbn [bind].
      apply reduceAdd_expired. lia. }
    destruct (JSON_parse (messageJson m)) as [msg|] eqn:Hp.
    2:{ unfold reduceAdd. rewrite (proj2 (Z.ltb_ge _ _) Hfresh), Hp. reflexivity. }
    destruct (prop msg "userName") as [u|e] eqn:Hu.
    2:{ unfold reduceAdd. rewrite (proj2 (Z.ltb_ge _ _) Hfresh), Hp, Hu.
        reflexivity. }
    destruct (prop msg "comment") as [c|e] eqn:Hc.
    2:{ unfold reduceAdd. rewrite (proj2 (Z.ltb_ge _ _) Hfresh), Hp, Hu, Hc.
        reflexivity. }
    destruct (in_dec string_dec (systemSignature m) (map commentId state))
      as [Hdup|Hnew].
    + rewrite (reduceAdd_duplicate _ now1 state m msg u c) by assumption.
      cbn [bind]. eapply reduceAdd_duplicate; eassumption.
    + rewrite (reduceAdd_accepts _ now1 state m msg u c) by assumption.
      cbn [bind]. eapply reduceAdd_duplicate; try eassumption.
      apply (id_in_sorted state (commentOf m u c)).
  - apply reachable_invariant.
    + constructor.
    + intros now state m state' Hnd Hstep.
      eapply reduceAdd_no_duplicate; eassumption.
Qed.

(** C2.  Every state of the store is in non-decreasing order of
    timestamp, and an [add] that accepts its message returns the
    sequence with the new comment, sorted by timestamp, the comments of
    equal timestamp in the order they had in the sequence with the new
    comment last. *)
Theorem sort_invariant :
  (forall state, reachable JSON_parse state -> ascending state)
  /\ (forall now state m msg u c,
         now - expireTimeMsec <= timestamp m ->
         JSON_parse (messageJson m) = Some msg ->
         prop msg "userName" = Returns u ->
         prop msg "comment" = Returns c ->
         ~ In (systemSignature m) (map commentId state) ->
         exists state',
           chatCommentsReducer JSON_parse now state (add m) = Returns state'
           /\ Permutation state' (state ++ [commentOf m u c])
           /\ ascending state'
           /\ forall t, tied t state' = tied t (state ++ [commentOf m u c])).
Proof.
  split.
  - apply reachable_invariant.
    + constructor.
    + intros now state m state' Hs Hstep.
      eapply reduceAdd_ascending; eassumption.
  - intros now state m msg u c Hts Hp Hu Hc Hnew.
    exists (Array_sort byTimestamp (state ++ [commentOf m u c])).
    split; [|split; [|split]].
    + apply reduceAdd_accepts with (msg := msg); assumption.
    + apply Array_sort_permutation.
    + apply (Array_sort_sorted commentTimestamp byTimestamp byTimestamp_key).
    + intros t.
      apply (Array_sort_stable commentTimestamp byTimestamp byTimestamp_key).
Qed.

(** C3, as the reducer has it.  The expiry window is one hour.  A
    message strictly older than the window (timestamp below
    [now - expireTimeMsec], so also [now - expireTimeMsec - 1]) is
    rejected with no change of state; a message whose timestamp is
    [now - expireTimeMsec] or [now - expireTimeMsec + 1] is accepted when
    its payload decodes and its signature is new. *)
Theorem expiry_boundary :
  expireTimeMsec = 3600000
  /\ (forall now state m,
         timestamp m < now - expireTimeMsec ->
         chatCommentsReducer JSON_parse now state (add m) = Returns state)
  /\ (forall now state m msg u c,
         timestamp m = now - expireTimeMsec
         \/ timestamp m = now - expireTimeMsec + 1 ->
         JSON_parse (messageJson m) = Some msg ->
         prop msg "userName" = Returns u ->
         prop msg "comment" = Returns c ->
         ~ In (systemSignature m) (map commentId state) ->
         exists state',
           chatCommentsReducer JSON_parse now state (add m) = Returns state'
           /\ Permutation state' (commentOf m u c :: state)).
Proof.
  split; [reflexivity|split].
  - intros now state m Hold. apply reduceAdd_expired, Hold.
  - intros now state m msg u c Hts Hp Hu Hc Hnew.
    exists (Array_sort byTimestamp (state ++ [commentOf m u c])). split.
    + apply reduceAdd_accepts with (msg := msg); try assumption. lia.
    + apply sorted_permutation.
Qed.

(** [add] reads [userName] and [comment] from the payload and never
    its [type]. *)
Lemma add_inserts now state m msg u c :
  now - expireTimeMsec <= timestamp m ->
  JSON_parse (messageJson m) = Some msg ->
  prop msg "userName" = Returns u ->
  prop msg "comment" = Returns c ->
  ~ In (systemSignature m) (map commentId state) ->
  chatCommentsReducer JSON_parse now state (add m)
  = Returns (Array_sort byTimestamp (state ++ [commentOf m u c])).
Proof. apply reduceAdd_accepts. Qed.

(** C9.  The expiry test is a lower bound only: a message with a new
    signature and a payload that decodes is accepted whenever its
    timestamp is at least [now - expireTimeMsec], however far in the
    future; when the timestamps of the store are below 10^21, the
    effect then moves a numeric catch-up timestamp to the message's
    timestamp or beyond, so past [now] for a future message. *)
Theorem no_upper_timestamp_bound :
  forall now state m msg u c,
    now - expireTimeMsec <= timestamp m ->
    JSON_parse (messageJson m) = Some msg ->
    prop msg "userName" = Returns u ->
    prop msg "comment" = Returns c ->
    ~ In (systemSignature m) (map commentId state) ->
    exists state',
      chatCommentsReducer JSON_parse now state (add m) = Returns state'
      /\ In (commentOf m u c) state'
      /\ forall st w,
          caughtUp now st = Num w ->
          Forall (fun d => plainDigits (commentTimestamp d)) state' ->
          exists w',
            caughtUp now (commentsEffect Number_exponential true now state' st)
            = Num w'
            /\ timestamp m <= w'.
Proof.
  intros now state m msg u c Hts Hp Hu Hc Hnew.
  exists (Array_sort byTimestamp (state ++ [commentOf m u c])).
  assert (Hin : In (commentOf m u c)
                   (Array_sort byTimestamp (state ++ [commentOf m u c]))).
  { eapply Permutation_in; [apply Permutation_sym, sorted_permutation|].
    left. reflexivity. }
  split; [|split].
  - apply add_inserts with (msg := msg); assumption.
  - exact Hin.
  - intros st w Hw Hplain.
    exists (maxTimestamp w (Array_sort byTimestamp (state ++ [commentOf m u c]))).
    split.
    + apply (effect_loop Number_exponential now _ st w Hw Hplain).
    + apply (proj2 (maxTimestamp_bounds _ w) _ Hin).
Qed.
End StoreProperties.

(* ------------------------------------------------------------------ *)
(** ** The responder: batches                                          *)
(* ------------------------------------------------------------------ *)

Section BatchFacts.
Variable len : ChatMessage -> Z.
Variable startTimestamp : number.

Lemma batchSize_app batch mm :
  batchSize len (batch ++ [mm]) = batchSize len batch + len mm.
Proof.
  unfold batchSize. induction batch as [|x batch IH]; simpl; lia.
Qed.

Lemma wellFilled_nonempty batch : wellFilled len batch -> batch <> [].
Proof.
  intros (front & mm & -> & _) H. destruct front; discriminate.
Qed.

(** The inner loop, from any point of its run. *)
Lemma fillBatch_spec rest :
  forall size0 acc toSend rest',
    fillBatch len startTimestamp size0 acc rest = (toSend, rest') ->
    size0 = batchSize len acc ->
    acc = [] \/ wellFilled len acc ->
    (toSend = [] \/ wellFilled len toSend)
    /\ toSend ++ requested startTimestamp rest'
       = acc ++ requested startTimestamp rest.
Proof.
  unfold requested.
  induction rest as [|c rest IH]; intros size0 acc toSend rest' Hrun Hsize Hacc.
  - injection Hrun as <- <-. split; [exact Hacc|reflexivity].
  - cbn [fillBatch] in Hrun.
    destruct (Z.ltb_spec size0 10000) as [Hroom|Hfull].
    + cbn [map filter].
      destruct (gt_number (timestamp (chatMessage c)) startTimestamp).
      * apply IH in Hrun.
        -- destruct Hrun as [Hok Hcat]. split; [exact Hok|].
           rewrite Hcat, <- app_assoc. reflexivity.
        -- rewrite batchSize_app, Hsize. reflexivity.
        -- right. exists acc, (chatMessage c). split; [reflexivity|lia].
      * apply IH in Hrun; assumption.
    + injection Hrun as <- <-. split; [exact Hacc|reflexivity].
Qed.

(** The outer loop: every batch is well filled, and the batches hold
    the requested messages, all of them, in order. *)
Lemma sendBatches_spec rest :
  Forall (wellFilled len) (sendBatches len startTimestamp rest)
  /\ List.concat (sendBatches len startTimestamp rest) = requested startTimestamp rest.
Proof.
  funelim (sendBatches len startTimestamp rest).
  - split; [constructor|reflexivity].
  - clear Heqcall.
    destruct (fillBatch_spec _ _ _ _ _ filled eq_refl (or_introl eq_refl))
      as [Hok Hcat].
    destruct H as [Hall Hconcat].
    change (requested startTimestamp (c :: rest'))
      with ([] ++ requested startTimestamp (c :: rest')).
    rewrite <- Hcat.
    destruct toSend as [|mm toSend]; cbn [app List.concat].
    + split; assumption.
    + split.
      * constructor; [|exact Hall].
        destruct Hok as [Hnil|Hok]; [discriminate|exact Hok].
      * rewrite <- Hconcat. reflexivity.
Qed.

Lemma sendBatches_nothing rest :
  (forall c, In c rest ->
             gt_number (timestamp (chatMessage c)) startTimestamp = false) ->
  sendBatches len startTimestamp rest = [].
Proof.
  intros Hnone.
  destruct (sendBatches_spec rest) as [Hall Hconcat].
  assert (Hreq : requested startTimestamp rest = []).
  { unfold requested. clear - Hnone.
    induction rest as [|c rest IH]; [reflexivity|]. cbn [map filter].
    rewrite (Hnone c (or_introl eq_refl)). apply IH.
    intros d Hd. apply Hnone. right. exact Hd. }
  rewrite Hreq in Hconcat.
  destruct (sendBatches len startTimestamp rest) as [|b bs]; [reflexivity|].
  inversion Hall as [|? ? Hb _]; subst.
  apply wellFilled_nonempty in Hb.
  cbn [List.concat] in Hconcat. destruct b; [contradiction|discriminate].
Qed.
End BatchFacts.

(* ------------------------------------------------------------------ *)
(** ** The inbound message handler                                     *)
(* ------------------------------------------------------------------ *)

Section HandlerProperties.
Variable JSON_parse : string -> option value.
Variable len : ChatMessage -> Z.

Lemma asChatMessage_object v c :
  asChatMessage v = Some c -> exists fields, v = VObj fields.
Proof.
  destruct v; try discriminate. intros _. eexists. reflexivity.
Qed.

(** The [forEach] on an array of messages: it dispatches [add] for the
    messages that are not older than the catch-up timestamp. *)
Lemma ingestHistory_messages now r items cs :
  Forall2 (fun v c => asChatMessage v = Some c) items cs ->
  ingestHistory now r items
  = {| emitted := map dispatchAdd (filter (survives now r) cs);
       status := Completed |}.
Proof.
  induction 1 as [|v c items cs Hv _ IH]; [reflexivity|].
  destruct (asChatMessage_object v c Hv) as [fields ->].
  cbn [ingestHistory]. rewrite Hv, IH. cbn [filter emitted status].
  replace (survives now r c)
    with (negb (lt_number (timestamp c) (getCaughtUpTimestamp now r)))
    by reflexivity.
  destruct (lt_number (timestamp c) (getCaughtUpTimestamp now r)); reflexivity.
Qed.

Lemma onMessage_history now r chatComments m msg items :
  JSON_parse (messageJson m) = Some msg ->
  prop msg "type" = Returns (VStr "history") ->
  prop msg "comments" = Returns (VArr items) ->
  onMessage JSON_parse len now r chatComments m = ingestHistory now r items.
Proof.
  intros Hp Hty Hcs. unfold onMessage. rewrite Hp, Hty, Hcs. reflexivity.
Qed.

(** The comments of the store after the reducer has run a list of
    [add]: those it had, and comments of the messages added. *)
Lemma dispatchAll_adds now cs :
  forall state state',
    dispatchAll JSON_parse now state (map dispatchAdd cs) = Returns state' ->
    forall x, In x state' -> In x state \/ In (chatMessage x) cs.
Proof.
  induction cs as [|c cs IH]; intros state state' Hrun x Hx.
  - injection Hrun as <-. left. exact Hx.
  - cbn [map dispatchAdd dispatchAll chatCommentsReducer] in Hrun.
    destruct (reduceAdd JSON_parse now state c) as [s1|] eqn:H1; [|discriminate].
    cbn [bind] in Hrun.
    destruct (IH s1 state' Hrun x Hx) as [Hs1|Hcs]; [|right; right; exact Hcs].
    apply reduceAdd_returns in H1.
    destruct H1 as [->|(msg & u & t & _ & _ & _ & _ & _ & ->)];
      [left; exact Hs1|].
    apply (Permutation_in _ (sorted_permutation state _)) in Hs1.
    destruct Hs1 as [<-|Hs]; [right; left; reflexivity|left; exact Hs].
Qed.

(** C5.  On a [history] message whose [comments] are messages, the
    handler completes; a message older than the catch-up timestamp read
    at that moment is not given to [add], a message that is not older
    is; and after the reducer has run what was dispatched, every
    comment of the store was there before or comes from a message of
    the batch that is not older than the catch-up timestamp. *)
Theorem history_filter :
  forall now r chatComments m msg items cs w,
    JSON_parse (messageJson m) = Some msg ->
    prop msg "type" = Returns (VStr "history") ->
    prop msg "comments" = Returns (VArr items) ->
    Forall2 (fun v c => asChatMessage v = Some c) items cs ->
    getCaughtUpTimestamp now r = Num w ->
    let out := onMessage JSON_parse len now r chatComments m in
    status out = Completed
    /\ (forall c, In c cs -> timestamp c < w ->
                  ~ In (Dispatch (add c)) (emitted out))
    /\ (forall c, In c cs -> w <= timestamp c ->
                  In (Dispatch (add c)) (emitted out))
    /\ (forall e, In e (emitted out) ->
                  exists c, e = Dispatch (add c) /\ In c cs /\ w <= timestamp c)
    /\ (forall now' state state',
           dispatchAll JSON_parse now' state (emitted out) = Returns state' ->
           forall x, In x state' ->
                     In x state
                     \/ (In (chatMessage x) cs /\ w <= timestamp (chatMessage x))).
Proof.
  intros now r chatComments m msg items cs w Hp Hty Hcs Hitems Hw out.
  subst out.
  rewrite (onMessage_history now r chatComments m msg items Hp Hty Hcs).
  rewrite (ingestHistory_messages now r items cs Hitems).
  cbn [emitted status].
  assert (Hkeep : forall c, survives now r c = true <-> w <= timestamp c).
  { intros c. unfold survives. rewrite Hw. cbn [lt_number].
    rewrite negb_true_iff, Z.ltb_ge. reflexivity. }
  split; [reflexivity|split; [|split; [|split]]].
  - intros c _ Hold Hin. apply in_map_iff in Hin.
    destruct Hin as (c' & Heq & Hin). injection Heq as ->.
    apply filter_In in Hin. destruct Hin as [_ Hs]. apply Hkeep in Hs. lia.
  - intros c Hin Hnew. apply (in_map dispatchAdd), filter_In.
    split; [exact Hin|apply Hkeep, Hnew].
  - intros e Hin. apply in_map_iff in Hin. destruct Hin as (c & <- & Hin).
    apply filter_In in Hin. destruct Hin as [Hin Hs].
    exists c. split; [reflexivity|split; [exact Hin|apply Hkeep, Hs]].
  - intros now' state state' Hrun x Hx.
    destruct (dispatchAll_adds now' _ state state' Hrun x Hx) as [Hold|Hin];
      [left; exact Hold|right].
    apply filter_In in Hin. destruct Hin as [Hin Hs].
    split; [exact Hin|apply Hkeep, Hs].
Qed.

(** C6.  On a [request-history] message the handler completes and
    publishes only history batches; a batch is not empty and the
    serialized sizes of its messages but the last add up to less than
    10000, so its size is below 10000 plus the size of its last message;
    when no comment of the store is above [startTimestamp], nothing is
    published. *)
Theorem batch_size_bound :
  forall now r chatComments m msg start startTimestamp,
    JSON_parse (messageJson m) = Some msg ->
    prop msg "type" = Returns (VStr "request-history") ->
    prop msg "startTimestamp" = Returns start ->
    toNumber start = Some startTimestamp ->
    let out := onMessage JSON_parse len now r chatComments m in
    status out = Completed
    /\ (forall e, In e (emitted out) ->
          exists front mm,
            e = Publish channelName (front ++ [mm])
            /\ batchSize len front < 10000
            /\ batchSize len (front ++ [mm]) < 10000 + len mm)
    /\ ((forall c, In c chatComments ->
                   gt_number (timestamp (chatMessage c)) startTimestamp = false) ->
        emitted out = []).
Proof.
  intros now r chatComments m msg start startTimestamp Hp Hty Hst Hnum out.
  subst out. unfold onMessage. rewrite Hp, Hty. cbn [strictEq].
  change ("request-history" =? "comment")%string with false.
  change ("request-history" =? "request-history")%string with true.
  cbn iota. rewrite Hst, Hnum. cbn [emitted status].
  split; [reflexivity|split].
  - intros e Hin. apply in_map_iff in Hin. destruct Hin as (b & <- & Hin).
    destruct (sendBatches_spec len startTimestamp chatComments) as [Hall _].
    rewrite Forall_forall in Hall.
    destruct (Hall b Hin) as (front & mm & -> & Hsize).
    exists front, mm. rewrite batchSize_app.
    split; [reflexivity|split; [exact Hsize|lia]].
  - intros Hnone. rewrite sendBatches_nothing by exact Hnone. reflexivity.
Qed.

(** C7, as the handler has it.  A payload that does not decode makes
    the handler throw to its caller.  When the payload decodes and its
    [type] can be read, a [type] other than the three known ones is
    ignored: the handler completes, dispatches nothing and publishes
    nothing; and a [comment] message is handed to [add]. *)
Theorem router_unknown_type :
  forall now r chatComments m,
    (JSON_parse (messageJson m) = None ->
     onMessage JSON_parse len now r chatComments m
     = {| emitted := []; status := Threw SyntaxError |})
    /\ (forall msg type,
           JSON_parse (messageJson m) = Some msg ->
           prop msg "type" = Returns type ->
           strictEq type "comment" = false ->
           strictEq type "request-history" = false ->
           strictEq type "history" = false ->
           onMessage JSON_parse len now r chatComments m
           = {| emitted := []; status := Completed |})
    /\ (forall msg,
           JSON_parse (messageJson m) = Some msg ->
           prop msg "type" = Returns (VStr "comment") ->
           onMessage JSON_parse len now r chatComments m
           = {| emitted := [Dispatch (add m)]; status := Completed |}).
Proof.
  intros now r chatComments m. unfold onMessage. split; [|split].
  - intros ->. reflexivity.
  - intros msg type -> -> -> -> ->. reflexivity.
  - intros msg -> ->. reflexivity.
Qed.

(** C10.  [add] does not look at the [type] of the payload: a fresh
    message with a new signature is inserted with whatever the payload
    has under [userName] and [comment], [undefined] for a payload
    object without them; and the messages of a history batch that are
    not older than the catch-up timestamp are all handed to [add],
    whatever their own payload is. *)
Theorem add_ignores_payload_type :
  (forall now state m msg u c,
      now - expireTimeMsec <= timestamp m ->
      JSON_parse (messageJson m) = Some msg ->
      prop msg "userName" = Returns u ->
      prop msg "comment" = Returns c ->
      ~ In (systemSignature m) (map commentId state) ->
      chatCommentsReducer JSON_parse now state (add m)
      = Returns (Array_sort byTimestamp (state ++ [commentOf m u c])))
  /\ (forall now state m fields,
         now - expireTimeMsec <= timestamp m ->
         JSON_parse (messageJson m) = Some (VObj fields) ->
         lookup "userName" fields = VUndefined ->
         lookup "comment" fields = VUndefined ->
         ~ In (systemSignature m) (map commentId state) ->
         chatCommentsReducer JSON_parse now state (add m)
         = Returns (Array_sort byTimestamp
                      (state ++ [commentOf m VUndefined VUndefined])))
  /\ (forall now r chatComments m msg items cs,
         JSON_parse (messageJson m) = Some msg ->
         prop msg "type" = Returns (VStr "history") ->
         prop msg "comments" = Returns (VArr items) ->
         Forall2 (fun v c => asChatMessage v = Some c) items cs ->
         onMessage JSON_parse len now r chatComments m
         = {| emitted := map dispatchAdd (filter (survives now r) cs);
              status := Completed |}).
Proof.
  split; [|split].
  - intros now state m msg u c. apply add_inserts.
  - intros now state m fields Hts Hp Hu Hc Hnew.
    apply add_inserts with (msg := VObj fields); try assumption.
    + cbn [prop]. rewrite Hu. reflexivity.
    + cbn [prop]. rewrite Hc. reflexivity.
  - intros now r chatComments m msg items cs Hp Hty Hcs Hitems.
    rewrite (onMessage_history now r chatComments m msg items Hp Hty Hcs).
    apply ingestHistory_messages, Hitems.
Qed.
End HandlerProperties.

(* ------------------------------------------------------------------ *)
(** ** The catch-up timestamp                                          *)
(* ------------------------------------------------------------------ *)

(** What [getCaughtUpTimestamp] returns on an item that is absent or
    empty, on a storage that throws, and on an item written by
    [setCaughtUpTimestamp] for a timestamp below 10^21. *)
Lemma getCaughtUpTimestamp_cases Number_exponential now :
  getCaughtUpTimestamp now (getItemReturns None) = Num (now - 86400000)
  /\ getCaughtUpTimestamp now (getItemReturns (Some "")) = Num (now - 86400000)
  /\ getCaughtUpTimestamp now getItemThrows = Num (now - 86400000)
  /\ forall t,
      plainDigits t ->
      getCaughtUpTimestamp
        now (getItemReturns (Some (Number_toString Number_exponential t)))
      = Num t.
Proof.
  repeat split. intros t Ht. unfold getCaughtUpTimestamp.
  rewrite (toString_plain _ t Ht), decimalDigits_truthy.
  apply parseInt_decimalDigits.
Qed.

(** C4, as the component has it.  Before the initial load is complete
    the effect leaves the storage alone.  After it, the effect calls
    [setCaughtUpTimestamp] only with a timestamp above what
    [getCaughtUpTimestamp] returned just before; from a numeric
    catch-up timestamp [w], and when the timestamps of the comments
    are below 10^21 in absolute value, which [toString] writes in
    plain digits, it leaves the catch-up timestamp at the largest of
    [w] and the timestamps of the comments.  [handleClearAllComments]
    calls [setCaughtUpTimestamp] with [now] whatever the catch-up
    timestamp was, which is then [now], and dispatches [clear]. *)
Theorem watermark_moves :
  forall Number_exponential now chatComments st,
    commentsEffect Number_exponential false now chatComments st = st
    /\ (exists new,
           calls (commentsEffect Number_exponential true now chatComments st)
           = calls st ++ new
           /\ Forall (advances now) new)
    /\ (forall w,
           caughtUp now st = Num w ->
           Forall (fun c => plainDigits (commentTimestamp c)) chatComments ->
           caughtUp now (commentsEffect Number_exponential true now chatComments st)
           = Num (maxTimestamp w chatComments))
    /\ (plainDigits now ->
        caughtUp now (fst (handleClearAllComments Number_exponential now st))
        = Num now)
    /\ calls (fst (handleClearAllComments Number_exponential now st))
       = calls st ++ [{| itemBefore := item st; given := now |}]
    /\ snd (handleClearAllComments Number_exponential now st) = clear.
Proof.
  intros Number_exponential now chatComments st.
  split; [reflexivity|split; [|split; [|split; [|split]]]].
  - apply effect_calls.
  - intros w Hw Hplain. apply effect_loop; assumption.
  - intros Hnow. apply caughtUp_after_set, Hnow.
  - reflexivity.
  - reflexivity.
Qed.

(** C8: the read of a stored item that is not a number.  The item
    [abc] is read as [NaN] and the item [12abc] as 12; neither is the
    default, one day before [now]. *)
Theorem malformed_watermark_read :
  getCaughtUpTimestamp now0 (getItemReturns (Some "abc")) = NaN
  /\ getCaughtUpTimestamp now0 (getItemReturns (Some "12abc")) = Num 12
  /\ NaN <> Num (now0 - 1000 * 60 * 60 * 24)
  /\ Num 12 <> Num (now0 - 1000 * 60 * 60 * 24).
Proof.
  repeat split; try reflexivity; discriminate.
Qed.

(* ------------------------------------------------------------------ *)
(** ** Runs on concrete messages                                       *)
(* ------------------------------------------------------------------ *)

Lemma add_idempotent_unique_ids_witness :
  (s' <- chatCommentsReducer sampleParse now0 [] (add boundaryMessage) ;;
   chatCommentsReducer sampleParse (now0 + 1) s' (add boundaryMessage))
  = chatCommentsReducer sampleParse now0 [] (add boundaryMessage)
  /\ NoDup (map commentId [boundaryComment]).
Proof.
  split.
  - apply (proj1 (add_idempotent_unique_ids sampleParse)). unfold now0. lia.
  - apply (proj2 (add_idempotent_unique_ids sampleParse)).
    apply (reachable_step sampleParse now0 [] (add boundaryMessage)).
    + apply reachable_init.
    + vm_compute. reflexivity.
Defined.

Lemma sort_invariant_witness :
  ascending [boundaryComment]
  /\ exists state',
      chatCommentsReducer sampleParse now0 [boundaryComment] (add futureMessage)
      = Returns state'
      /\ Permutation state' ([boundaryComment] ++ [futureComment])
      /\ ascending state'
      /\ forall t, tied t state' = tied t ([boundaryComment] ++ [futureComment]).
Proof.
  split.
  - apply (proj1 (sort_invariant sampleParse)).
    apply (reachable_step sampleParse now0 [] (add boundaryMessage)).
    + apply reachable_init.
    + vm_compute. reflexivity.
  - apply (proj2 (sort_invariant sampleParse) now0 [boundaryComment] futureMessage
                 (commentPayload "bob" "world") (VStr "bob") (VStr "world")).
    + vm_compute. discriminate.
    + vm_compute. reflexivity.
    + reflexivity.
    + reflexivity.
    + vm_compute. intros [H|[]]. discriminate H.
Defined.

(** The message at [now - expireTimeMsec] is accepted: the store
    changes from empty to one comment. *)
Lemma boundary_message_accepted :
  timestamp boundaryMessage = now0 - expireTimeMsec
  /\ chatCommentsReducer sampleParse now0 [] (add boundaryMessage)
     = Returns [boundaryComment]
  /\ chatCommentsReducer sampleParse now0 [] (add boundaryMessage) <> Returns [].
Proof.
  split; [reflexivity|split].
  - vm_compute. reflexivity.
  - vm_compute. discriminate.
Qed.

Lemma expiry_boundary_witness :
  chatCommentsReducer sampleParse now0 [] (add expiredMessage) = Returns []
  /\ exists state',
      chatCommentsReducer sampleParse now0 [] (add boundaryMessage) = Returns state'
      /\ Permutation state' [boundaryComment].
Proof.
  destruct (expiry_boundary sampleParse) as (_ & Hold & Hnew). split.
  - apply Hold. vm_compute. reflexivity.
  - apply (Hnew now0 [] boundaryMessage (commentPayload "ann" "hello")
                (VStr "ann") (VStr "hello")).
    + left. reflexivity.
    + vm_compute. reflexivity.
    + reflexivity.
    + reflexivity.
    + intros [].
Defined.

Lemma no_upper_timestamp_bound_witness :
  chatCommentsReducer sampleParse now0 [] (add futureMessage)
  = Returns [futureComment]
  /\ In futureComment [futureComment]
  /\ exists w',
      caughtUp now0 (commentsEffect sampleExponential true now0 [futureComment]
                                    emptyStorage)
      = Num w'
      /\ timestamp futureMessage <= w'.
Proof.
  destruct (no_upper_timestamp_bound sampleParse sampleExponential now0 []
              futureMessage (commentPayload "bob" "world")
              (VStr "bob") (VStr "world"))
    as (state' & Hadd & Hin & Heffect).
  - vm_compute. discriminate.
  - vm_compute. reflexivity.
  - reflexivity.
  - reflexivity.
  - intros [].
  - assert (Hstate : state' = [futureComment]).
    { vm_compute in Hadd. injection Hadd as <-. reflexivity. }
    subst state'. split; [vm_compute; reflexivity|split; [exact Hin|]].
    apply (Heffect emptyStorage (now0 - 86400000)).
    + reflexivity.
    + repeat constructor.
Defined.

Lemma history_filter_witness :
  let out := onMessage sampleParse sampleLength now0 (getItemReturns None) []
                       historyMessage in
  status out = Completed
  /\ (forall c, In c [staleMessage; strayRequest] ->
                timestamp c < now0 - 86400000 ->
                ~ In (Dispatch (add c)) (emitted out))
  /\ (forall c, In c [staleMessage; strayRequest] ->
                now0 - 86400000 <= timestamp c ->
                In (Dispatch (add c)) (emitted out))
  /\ (forall e, In e (emitted out) ->
                exists c, e = Dispatch (add c)
                          /\ In c [staleMessage; strayRequest]
                          /\ now0 - 86400000 <= timestamp c)
  /\ (forall now' state state',
         dispatchAll sampleParse now' state (emitted out) = Returns state' ->
         forall x, In x state' ->
                   In x state
                   \/ (In (chatMessage x) [staleMessage; strayRequest]
                       /\ now0 - 86400000 <= timestamp (chatMessage x))).
Proof.
  apply (history_filter sampleParse sampleLength now0 (getItemReturns None) []
           historyMessage (historyPayload [staleMessage; strayRequest])
           (map valueOfChatMessage [staleMessage; strayRequest])
           [staleMessage; strayRequest] (now0 - 86400000)).
  - vm_compute. reflexivity.
  - reflexivity.
  - reflexivity.
  - repeat constructor.
  - reflexivity.
Defined.

Lemma batch_size_bound_witness :
  let out := onMessage sampleParse sampleLength now0 (getItemReturns None)
                       [boundaryComment] requestMessage in
  status out = Completed
  /\ (forall e, In e (emitted out) ->
        exists front mm,
          e = Publish channelName (front ++ [mm])
          /\ batchSize sampleLength front < 10000
          /\ batchSize sampleLength (front ++ [mm]) < 10000 + sampleLength mm)
  /\ ((forall c, In c [boundaryComment] ->
                 gt_number (timestamp (chatMessage c)) (Num 0) = false) ->
      emitted out = []).
Proof.
  apply (batch_size_bound sampleParse sampleLength now0 (getItemReturns None)
           [boundaryComment] requestMessage (requestHistoryPayload 0)
           (VNum 0) (Num 0)).
  - vm_compute. reflexivity.
  - reflexivity.
  - reflexivity.
  - reflexivity.
Defined.

(** A message whose [messageJson] is not JSON: the handler throws. *)
Lemma garbled_message_throws :
  sampleParse (messageJson garbledMessage) = None
  /\ status (onMessage sampleParse sampleLength now0 (getItemReturns None) []
                       garbledMessage)
     = Threw SyntaxError.
Proof.
  split; vm_compute; reflexivity.
Qed.

Lemma router_unknown_type_witness :
  onMessage sampleParse sampleLength now0 (getItemReturns None) [] garbledMessage
  = {| emitted := []; status := Threw SyntaxError |}
  /\ onMessage sampleParse sampleLength now0 (getItemReturns None) [] pingMessage
     = {| emitted := []; status := Completed |}
  /\ onMessage sampleParse sampleLength now0 (getItemReturns None) []
               boundaryMessage
     = {| emitted := [Dispatch (add boundaryMessage)]; status := Completed |}.
Proof.
  split; [|split].
  - apply (proj1 (router_unknown_type sampleParse sampleLength now0
                    (getItemReturns None) [] garbledMessage)).
    vm_compute. reflexivity.
  - apply (proj1 (proj2 (router_unknown_type sampleParse sampleLength now0
                           (getItemReturns None) [] pingMessage))
             pingPayload (VStr "ping")).
    + vm_compute. reflexivity.
    + reflexivity.
    + reflexivity.
    + reflexivity.
    + reflexivity.
  - apply (proj2 (proj2 (router_unknown_type sampleParse sampleLength now0
                           (getItemReturns None) [] boundaryMessage))
             (commentPayload "ann" "hello")).
    + vm_compute. reflexivity.
    + reflexivity.
Defined.

Lemma add_ignores_payload_type_witness :
  chatCommentsReducer sampleParse now0 [] (add pingMessage)
  = Returns (Array_sort byTimestamp
               ([] ++ [commentOf pingMessage VUndefined VUndefined]))
  /\ chatCommentsReducer sampleParse now0 [] (add strayRequest)
     = Returns (Array_sort byTimestamp
                  ([] ++ [commentOf strayRequest VUndefined VUndefined]))
  /\ onMessage sampleParse sampleLength now0 (getItemReturns None) []
               historyMessage
     = {| emitted := map dispatchAdd
                         (filter (survives now0 (getItemReturns None))
                                 [staleMessage; strayRequest]);
          status := Completed |}.
Proof.
  destruct (add_ignores_payload_type sampleParse sampleLength)
    as (Hany & Hnone & Hhist).
  split; [|split].
  - apply (Hany now0 [] pingMessage pingPayload VUndefined VUndefined).
    + vm_compute. discriminate.
    + vm_compute. reflexivity.
    + reflexivity.
    + reflexivity.
    + intros [].
  - apply (Hnone now0 [] strayRequest
             [("type", VStr "request-history"); ("startTimestamp", VNum 0)]).
    + vm_compute. discriminate.
    + vm_compute. reflexivity.
    + reflexivity.
    + reflexivity.
    + intros [].
  - apply (Hhist now0 (getItemReturns None) [] historyMessage
             (historyPayload [staleMessage; strayRequest])
             (map valueOfChatMessage [staleMessage; strayRequest])).
    + vm_compute. reflexivity.
    + reflexivity.
    + reflexivity.
    + repeat constructor.
Defined.

Lemma watermark_moves_witness :
  caughtUp now0 (commentsEffect sampleExponential true now0 [futureComment]
                                emptyStorage)
  = Num (maxTimestamp (now0 - 86400000) [futureComment])
  /\ caughtUp now0 (fst (handleClearAllComments sampleExponential now0
                                                emptyStorage))
     = Num now0.
Proof.
  destruct (watermark_moves sampleExponential now0 [futureComment] emptyStorage)
    as (_ & _ & Hmax & Hclear & _).
  split.
  - apply (Hmax (now0 - 86400000)).
    + reflexivity.
    + repeat constructor.
  - apply Hclear. unfold plainDigits. vm_compute. reflexivity.
Defined.

(** A future comment is accepted and the effect stores its timestamp;
    a clear-all one millisecond later calls [setCaughtUpTimestamp] with
    a timestamp below what [getCaughtUpTimestamp] returned just before,
    and the catch-up timestamp goes back. *)
Lemma clear_moves_watermark_back :
  chatCommentsReducer sampleParse now0 [] (add futureMessage)
  = Returns [futureComment]
  /\ caughtUp (now0 + 1) storageAfterFuture = Num (now0 + 1000000)
  /\ calls (fst (handleClearAllComments sampleExponential (now0 + 1)
                                        storageAfterFuture))
     = calls storageAfterFuture ++ [clearCall]
  /\ priorGet (now0 + 1) clearCall = Num (now0 + 1000000)
  /\ given clearCall = now0 + 1
  /\ given clearCall < now0 + 1000000
  /\ caughtUp (now0 + 1)
              (fst (handleClearAllComments sampleExponential (now0 + 1)
                                           storageAfterFuture))
     = Num (now0 + 1).
Proof.
  repeat split; vm_compute; reflexivity.
Qed.

(** The history message of the examples, end to end: the stale message
    is dropped, the request that strayed into the batch becomes a
    comment with no user name and no text. *)
Example history_message_end_to_end :
  dispatchAll sampleParse now0 []
    (emitted (onMessage sampleParse sampleLength now0 (getItemReturns None) []
                        historyMessage))
  = Returns [commentOf strayRequest VUndefined VUndefined].
Proof. vm_compute. reflexivity. Qed.

(** Two batches: with messages of 6000 units each, the first batch
    takes two messages (6000 is below 10000 when the second is added)
    and the third message goes to a second batch. *)
Example three_messages_two_batches :
  sendBatches (fun _ => 6000) (Num 0)
    [boundaryComment; futureComment; commentOf strayRequest VUndefined VUndefined]
  = [[boundaryMessage; futureMessage]; [strayRequest]].
Proof. vm_compute. reflexivity. Qed.

(* ------------------------------------------------------------------ *)
(** ** More on the reducer                                             *)
(* ------------------------------------------------------------------ *)

Section ReducerMore.
Variable JSON_parse : string -> option value.

Lemma reduceAdd_grows now state m state' :
  reduceAdd JSON_parse now state m = Returns state' ->
  incl state state' /\ (List.length state' <= S (List.length state))%nat.
Proof.
  intros H. apply reduceAdd_returns in H.
  destruct H as [->|(msg & u & c & _ & _ & _ & _ & _ & ->)].
  - split; [apply incl_refl|apply Nat.le_succ_diag_r].
  - pose proof (sorted_permutation state (commentOf m u c)) as Hp. split.
    + intros x Hx. eapply Permutation_in; [apply Permutation_sym, Hp|].
      right. exact Hx.
    + rewrite (Permutation_length Hp). apply le_n.
Qed.

(** X1.  [add] and [addMultiple] never remove a comment: when they
    return, every comment of the state is in the new state, which has
    at most one comment more per message. *)
Theorem store_only_grows :
  (forall now state m state',
      chatCommentsReducer JSON_parse now state (add m) = Returns state' ->
      incl state state'
      /\ (List.length state' <= S (List.length state))%nat)
  /\ (forall now ms state state',
         chatCommentsReducer JSON_parse now state (addMultiple ms) = Returns state' ->
         incl state state'
         /\ (List.length state' <= List.length state + List.length ms)%nat).
Proof.
  split; [intros now state m state'; apply reduceAdd_grows|].
  intros now ms. cbn [chatCommentsReducer].
  induction ms as [|m ms IH]; intros state state' H; cbn [reduceAddMultiple] in H.
  - injection H as <-. split; [apply incl_refl|lia].
  - destruct (reduceAdd JSON_parse now state m) as [s1|] eqn:H1; [|discriminate].
    cbn [bind] in H. destruct (reduceAdd_grows _ _ _ _ H1) as [Hi1 Hl1].
    destruct (IH _ _ H) as [Hi Hl]. split.
    + eapply incl_tran; eassumption.
    + cbn [List.length]. lia.
Qed.

Lemma insert_first x l :
  (forall y l', l = y :: l' -> commentTimestamp x <= commentTimestamp y) ->
  insert byTimestamp x l = x :: l.
Proof.
  intros H. destruct l as [|y l']; [reflexivity|]. cbn [insert].
  unfold byTimestamp. specialize (H y l' eq_refl).
  replace (commentTimestamp x - commentTimestamp y <=? 0) with true
    by (symmetry; apply Z.leb_le; lia).
  reflexivity.
Qed.

Lemma insert_later x c l :
  commentTimestamp c < commentTimestamp x ->
  insert byTimestamp x (c :: l) = c :: insert byTimestamp x l.
Proof.
  intros H. cbn [insert]. unfold byTimestamp at 1.
  replace (commentTimestamp x - commentTimestamp c <=? 0) with false
    by (symmetry; apply Z.leb_gt; lia).
  reflexivity.
Qed.

Lemma sorted_insert_place (c : ChatComment) state :
  StronglySorted Z.le (map commentTimestamp state) ->
  fold_right (insert byTimestamp) [c] state
  = filter (fun d => commentTimestamp d <=? commentTimestamp c) state
    ++ c :: filter (fun d => commentTimestamp c <? commentTimestamp d) state.
Proof.
  induction state as [|x state IH]; intros Hs; [reflexivity|].
  cbn [map] in Hs. inversion Hs as [|? ? Hs' Hall]; subst.
  rewrite Forall_forall in Hall.
  assert (Hx : forall y, In y state -> commentTimestamp x <= commentTimestamp y).
  { intros y Hy. apply Hall, in_map, Hy. }
  cbn [fold_right filter]. rewrite (IH Hs').
  destruct (Z.leb_spec (commentTimestamp x) (commentTimestamp c)) as [Hle|Hgt].
  - replace (commentTimestamp c <? commentTimestamp x) with false
      by (symmetry; apply Z.ltb_ge; lia).
    apply insert_first. intros y l' Heq.
    destruct (filter (fun d => commentTimestamp d <=? commentTimestamp c) state)
      as [|z before] eqn:Hb; cbn [app] in Heq; injection Heq as <- _.
    + exact Hle.
    + apply Hx.
      apply (proj1 (filter_In
                      (fun d => commentTimestamp d <=? commentTimestamp c) z state)).
      rewrite Hb. left. reflexivity.
  - replace (commentTimestamp c <? commentTimestamp x) with true
      by (symmetry; apply Z.ltb_lt; lia).
    assert (Hnone : filter (fun d => commentTimestamp d <=? commentTimestamp c) state = []).
    { clear - Hx Hgt. induction state as [|y state IH]; [reflexivity|].
      cbn [filter]. pose proof (Hx y (or_introl eq_refl)).
      replace (commentTimestamp y <=? commentTimestamp c) with false
        by (symmetry; apply Z.leb_gt; lia).
      apply IH. intros z Hz. apply Hx. right. exact Hz. }
    rewrite Hnone, !app_nil_l. rewrite insert_later by exact Hgt. f_equal.
    apply insert_first. intros y l' Heq.
    apply Hx.
    apply (proj1 (filter_In
                    (fun d => commentTimestamp c <? commentTimestamp d) y state)).
    rewrite Heq. left. reflexivity.
Qed.

(** X2.  Where an accepted comment goes: in a state in order, it is put
    after the comments whose timestamp is at most its own and before
    those with a larger timestamp, so after the comments of the same
    timestamp. *)
Theorem accepted_comment_place :
  forall now state m msg u c,
    ascending state ->
    now - expireTimeMsec <= timestamp m ->
    JSON_parse (messageJson m) = Some msg ->
    prop msg "userName" = Returns u ->
    prop msg "comment" = Returns c ->
    ~ In (systemSignature m) (map commentId state) ->
    chatCommentsReducer JSON_parse now state (add m)
    = Returns
        (filter (fun d => commentTimestamp d <=? timestamp m) state
           ++ commentOf m u c
           :: filter (fun d => timestamp m <? commentTimestamp d) state).
Proof.
  intros now state m msg u c Hs Hts Hp Hu Hc Hnew.
  rewrite (add_inserts JSON_parse now state m msg u c) by assumption.
  f_equal. unfold Array_sort. rewrite fold_right_app.
  apply (sorted_insert_place (commentOf m u c)).
  apply Sorted_StronglySorted; [intros x y z; apply Z.le_trans|exact Hs].
Qed.

(** X3.  Two accepted messages with different timestamps may be added
    in either order: the resulting state is the same. *)
Theorem adds_commute :
  forall now state m1 m2 msg1 u1 c1 msg2 u2 c2,
    now - expireTimeMsec <= timestamp m1 ->
    now - expireTimeMsec <= timestamp m2 ->
    JSON_parse (messageJson m1) = Some msg1 ->
    prop msg1 "userName" = Returns u1 ->
    prop msg1 "comment" = Returns c1 ->
    JSON_parse (messageJson m2) = Some msg2 ->
    prop msg2 "userName" = Returns u2 ->
    prop msg2 "comment" = Returns c2 ->
    ~ In (systemSignature m1) (map commentId state) ->
    ~ In (systemSignature m2) (map commentId state) ->
    systemSignature m1 <> systemSignature m2 ->
    timestamp m1 <> timestamp m2 ->
    chatCommentsReducer JSON_parse now state (addMultiple [m1; m2])
    = chatCommentsReducer JSON_parse now state (addMultiple [m2; m1]).
Proof.
  intros now state m1 m2 msg1 u1 c1 msg2 u2 c2
         Ht1 Ht2 Hp1 Hu1 Hc1 Hp2 Hu2 Hc2 Hn1 Hn2 Hsig Hts.
  assert (Hfresh : forall (a b : ChatMessage) ua ca,
             ~ In (systemSignature b) (map commentId state) ->
             systemSignature a <> systemSignature b ->
             ~ In (systemSignature b)
                  (map commentId
                       (Array_sort byTimestamp (state ++ [commentOf a ua ca])))).
  { intros a b ua ca Hb Hab Hin. apply in_map_iff in Hin.
    destruct Hin as (x & Hid & Hx).
    apply (Permutation_in _ (sorted_permutation state _)) in Hx.
    destruct Hx as [<-|Hx]; [exact (Hab Hid)|].
    apply Hb. rewrite <- Hid. apply in_map, Hx. }
  cbn [chatCommentsReducer reduceAddMultiple].
  rewrite (reduceAdd_accepts JSON_parse now state m1 msg1 u1 c1) by assumption.
  rewrite (reduceAdd_accepts JSON_parse now state m2 msg2 u2 c2) by assumption.
  cbn [bind].
  rewrite (reduceAdd_accepts JSON_parse now _ m2 msg2 u2 c2);
    [|assumption..|apply Hfresh; assumption].
  rewrite (reduceAdd_accepts JSON_parse now _ m1 msg1 u1 c1);
    [|assumption..|apply Hfresh; [assumption|congruence]].
  cbn [bind]. f_equal.
  apply (stable_sort_unique commentTimestamp).
  - apply (Array_sort_sorted commentTimestamp byTimestamp byTimestamp_key).
  - apply (Array_sort_sorted commentTimestamp byTimestamp byTimestamp_key).
  - intros t.
    rewrite !(Array_sort_stable commentTimestamp byTimestamp byTimestamp_key).
    rewrite !filter_app.
    rewrite !(Array_sort_stable commentTimestamp byTimestamp byTimestamp_key).
    rewrite !filter_app, <- !app_assoc. f_equal.
    cbn [filter commentOf commentTimestamp].
    destruct (Z.eqb_spec (timestamp m1) t), (Z.eqb_spec (timestamp m2) t);
      try reflexivity.
    congruence.
Qed.

(** X4.  The errors of [add].  The expiry test comes first, so an
    expired message is dropped whatever its payload; a message that is
    not expired throws a [SyntaxError] when its payload does not
    decode and a [TypeError] when it decodes to [null]. *)
Theorem add_errors :
  forall now state m,
    (timestamp m < now - expireTimeMsec ->
     chatCommentsReducer JSON_parse now state (add m) = Returns state)
    /\ (now - expireTimeMsec <= timestamp m ->
        JSON_parse (messageJson m) = None ->
        chatCommentsReducer JSON_parse now state (add m) = Throws SyntaxError)
    /\ (now - expireTimeMsec <= timestamp m ->
        JSON_parse (messageJson m) = Some VNull ->
        chatCommentsReducer JSON_parse now state (add m) = Throws TypeError).
Proof.
  intros now state m. cbn [chatCommentsReducer]. split; [|split].
  - apply reduceAdd_expired.
  - intros Hts Hp. unfold reduceAdd.
    rewrite (proj2 (Z.ltb_ge _ _) Hts), Hp. reflexivity.
  - intros Hts Hp. unfold reduceAdd.
    rewrite (proj2 (Z.ltb_ge _ _) Hts), Hp. reflexivity.
Qed.

Lemma reduceAddMultiple_app now ms1 ms2 :
  forall state,
    reduceAddMultiple JSON_parse now state (ms1 ++ ms2)
    = (s <- reduceAddMultiple JSON_parse now state ms1 ;;
       reduceAddMultiple JSON_parse now s ms2).
Proof.
  induction ms1 as [|m ms1 IH]; intros state;
    rewrite <- ?app_comm_cons, ?app_nil_l; cbn [reduceAddMultiple].
  - reflexivity.
  - destruct (reduceAdd JSON_parse now state m) as [s1|e]; cbn [bind].
    + apply IH.
    + reflexivity.
Qed.

(** X5.  [addMultiple] on a list in two parts is [addMultiple] on the
    first part, then on the second; so when [add] throws on one message
    of the list, [addMultiple] throws and returns no state, whatever
    was added before and whatever comes after. *)
Theorem addMultiple_composes :
  (forall now state ms1 ms2,
      chatCommentsReducer JSON_parse now state (addMultiple (ms1 ++ ms2))
      = (s <- chatCommentsReducer JSON_parse now state (addMultiple ms1) ;;
         chatCommentsReducer JSON_parse now s (addMultiple ms2)))
  /\ (forall now state ms1 m ms2 s1 e,
         chatCommentsReducer JSON_parse now state (addMultiple ms1) = Returns s1 ->
         chatCommentsReducer JSON_parse now s1 (add m) = Throws e ->
         chatCommentsReducer JSON_parse now state (addMultiple (ms1 ++ m :: ms2))
         = Throws e).
Proof.
  cbn [chatCommentsReducer]. split.
  - intros now state ms1 ms2. apply reduceAddMultiple_app.
  - intros now state ms1 m ms2 s1 e H1 Hm.
    rewrite reduceAddMultiple_app, H1. cbn [bind reduceAddMultiple].
    rewrite Hm. reflexivity.
Qed.
End ReducerMore.

Section ReplayAndOrigin.
Variable JSON_parse : string -> option value.

(** A message that [add] has nothing more to do with in [state]: it is
    expired, or its payload decodes and its signature is in the state. *)
Lemma settled_add now state m :
  timestamp m < now - expireTimeMsec
  \/ ((exists msg u c,
          JSON_parse (messageJson m) = Some msg
          /\ prop msg "userName" = Returns u
          /\ prop msg "comment" = Returns c)
      /\ In (systemSignature m) (map commentId state)) ->
  forall now', now <= now' ->
               reduceAdd JSON_parse now' state m = Returns state.
Proof.
  intros [Hold|[(msg & u & c & Hp & Hu & Hc) Hin]] now' Hclock.
  - apply reduceAdd_expired. lia.
  - eapply reduceAdd_duplicate; eassumption.
Qed.

Lemma reduceAdd_settles now state m state' :
  reduceAdd JSON_parse now state m = Returns state' ->
  timestamp m < now - expireTimeMsec
  \/ ((exists msg u c,
          JSON_parse (messageJson m) = Some msg
          /\ prop msg "userName" = Returns u
          /\ prop msg "comment" = Returns c)
      /\ In (systemSignature m) (map commentId state')).
Proof.
  unfold reduceAdd.
  destruct (Z.ltb_spec (timestamp m) (now - expireTimeMsec)) as [Hold|Hfresh];
    [intros _; left; exact Hold|].
  destruct (JSON_parse (messageJson m)) as [msg|] eqn:Hp; [|discriminate].
  destruct (prop msg "userName") as [u|] eqn:Hu; [|discriminate].
  destruct (prop msg "comment") as [c|] eqn:Hc; [|discriminate].
  cbn [bind commentId].
  destruct (find _ state) eqn:F; intros [= <-]; right;
    (split; [exists msg, u, c; repeat split; assumption|]).
  - destruct (in_dec string_dec (systemSignature m) (map commentId state))
      as [Hin|Hout]; [exact Hin|].
    apply find_id_none in Hout. congruence.
  - apply (id_in_sorted state
             {| commentId := systemSignature m;
                commentSenderPublicKey := senderPublicKey m;
                userName := u; commentTimestamp := timestamp m;
                comment := c; chatMessage := m |}).
Qed.

Lemma replay_list now ms :
  forall state state',
    reduceAddMultiple JSON_parse now state ms = Returns state' ->
    incl (map commentId state) (map commentId state')
    /\ forall now', now <= now' ->
                    reduceAddMultiple JSON_parse now' state' ms = Returns state'.
Proof.
  induction ms as [|m ms IH]; intros state state' H;
    cbn [reduceAddMultiple] in H.
  - injection H as <-. split; [apply incl_refl|reflexivity].
  - destruct (reduceAdd JSON_parse now state m) as [s1|] eqn:H1; [|discriminate].
    cbn [bind] in H. destruct (IH _ _ H) as [Hids Hreplay].
    assert (Hgrow : incl (map commentId state) (map commentId s1)).
    { apply incl_map, (proj1 (reduceAdd_grows JSON_parse _ _ _ _ H1)). }
    split; [eapply incl_tran; eassumption|].
    intros now' Hclock. cbn [reduceAddMultiple].
    rewrite (settled_add now state' m) with (now' := now'); [| |exact Hclock].
    + cbn [bind]. apply Hreplay, Hclock.
    + destruct (reduceAdd_settles _ _ _ _ H1) as [Hold|[Hdec Hin]];
        [left; exact Hold|right].
      split; [exact Hdec|apply Hids, Hin].
Qed.

(** X6.  Replaying a list is harmless: after [addMultiple] has
    returned a state, [addMultiple] of the same list on that state, at
    the same time or later, returns it unchanged. *)
Theorem addMultiple_replay :
  forall now now' state ms state',
    now <= now' ->
    chatCommentsReducer JSON_parse now state (addMultiple ms) = Returns state' ->
    chatCommentsReducer JSON_parse now' state' (addMultiple ms) = Returns state'.
Proof.
  intros now now' state ms state' Hclock H.
  apply (proj2 (replay_list now ms state state' H)), Hclock.
Qed.

Lemma fromItsMessage_sorted state c :
  Forall fromItsMessage state -> fromItsMessage c ->
  Forall fromItsMessage (Array_sort byTimestamp (state ++ [c])).
Proof.
  intros Hs Hc. rewrite Forall_forall in *. intros x Hx.
  apply (Permutation_in _ (sorted_permutation state c)) in Hx.
  destruct Hx as [<-|Hx]; [exact Hc|apply Hs, Hx].
Qed.

Lemma reachable_ascending state :
  reachable JSON_parse state -> ascending state.
Proof.
  revert state. apply reachable_invariant.
  - constructor.
  - intros now state m state' Hs Hstep.
    eapply reduceAdd_ascending; eassumption.
Qed.

Lemma reachable_fromItsMessage state :
  reachable JSON_parse state -> Forall fromItsMessage state.
Proof.
  revert state. apply reachable_invariant.
  - constructor.
  - intros now state m state' Hs H. apply reduceAdd_returns in H.
    destruct H as [->|(msg & u & c & _ & _ & _ & _ & _ & ->)]; [exact Hs|].
    apply fromItsMessage_sorted; [exact Hs|]. repeat split.
Qed.

Lemma reachable_unique_ids state :
  reachable JSON_parse state -> NoDup (map commentId state).
Proof.
  revert state. apply reachable_invariant.
  - constructor.
  - intros now state m state' Hnd Hstep.
    eapply reduceAdd_no_duplicate; eassumption.
Qed.

(** X7.  In every state of the store each comment agrees with the
    message it holds: its id is the signature of the message, its
    sender and its timestamp are those of the message; hence no two
    comments hold messages of the same signature. *)
Theorem comments_agree_with_messages :
  forall state,
    reachable JSON_parse state ->
    Forall fromItsMessage state
    /\ NoDup (map (fun c => systemSignature (chatMessage c)) state).
Proof.
  intros state Hr.
  pose proof (reachable_fromItsMessage state Hr) as Hfrom.
  split; [exact Hfrom|].
  replace (map (fun c => systemSignature (chatMessage c)) state)
    with (map commentId state).
  - apply reachable_unique_ids, Hr.
  - apply map_ext_in. intros c Hc. rewrite Forall_forall in Hfrom.
    apply (Hfrom c Hc).
Qed.
End ReplayAndOrigin.

(* ------------------------------------------------------------------ *)
(** ** More on the handler                                             *)
(* ------------------------------------------------------------------ *)

Section ResponderMore.
Variable len : ChatMessage -> Z.
Variable startTimestamp : number.

Lemma fillBatch_full rest :
  forall size0 acc toSend rest',
    fillBatch len startTimestamp size0 acc rest = (toSend, rest') ->
    size0 = batchSize len acc ->
    rest' <> [] ->
    10000 <= batchSize len toSend.
Proof.
  induction rest as [|c rest IH]; intros size0 acc toSend rest' Hrun Hsize Hleft.
  - injection Hrun as <- <-. contradiction.
  - cbn [fillBatch] in Hrun.
    destruct (Z.ltb_spec size0 10000) as [Hroom|Hfull].
    + destruct (gt_number (timestamp (chatMessage c)) startTimestamp).
      * eapply IH; [exact Hrun| |exact Hleft].
        rewrite batchSize_app, Hsize. reflexivity.
      * eapply IH; eassumption.
    + injection Hrun as <- <-. lia.
Qed.

Lemma sendBatches_full rest :
  fullButLast len (sendBatches len startTimestamp rest).
Proof.
  funelim (sendBatches len startTimestamp rest).
  - intros before batch after Heq. destruct before; discriminate.
  - clear Heqcall. rename H into IH.
    intros before batch after Heq Hafter.
    destruct toSend as [|mm toSend].
    + rewrite app_nil_l in Heq. exact (IH before batch after Heq Hafter).
    + destruct before as [|b before]; cbn in Heq.
      * injection Heq as <- Hrest.
        eapply fillBatch_full; [exact filled|reflexivity|].
        intros ->. rewrite sendBatches_equation_1 in Hrest.
        apply Hafter. symmetry. exact Hrest.
      * injection Heq as _ Hrest. exact (IH before batch after Hrest Hafter).
Qed.
End ResponderMore.

Section HandlerMore.
Variable JSON_parse : string -> option value.
Variable len : ChatMessage -> Z.

Lemma onMessage_request now r chatComments m msg start startTimestamp :
  JSON_parse (messageJson m) = Some msg ->
  prop msg "type" = Returns (VStr "request-history") ->
  prop msg "startTimestamp" = Returns start ->
  toNumber start = Some startTimestamp ->
  onMessage JSON_parse len now r chatComments m
  = {| emitted := map (Publish channelName)
                      (sendBatches len startTimestamp chatComments);
       status := Completed |}.
Proof.
  intros Hp Hty Hst Hnum. unfold onMessage. rewrite Hp, Hty. cbn [strictEq].
  change ("request-history" =? "comment")%string with false.
  change ("request-history" =? "request-history")%string with true.
  cbn iota. rewrite Hst, Hnum. reflexivity.
Qed.

(** X8.  The answer to a [request-history] is complete: the batches
    published, put end to end, are the messages of the store with a
    timestamp above [startTimestamp], each once, in the order of the
    store. *)
Theorem responder_complete :
  forall now r chatComments m msg start startTimestamp,
    JSON_parse (messageJson m) = Some msg ->
    prop msg "type" = Returns (VStr "request-history") ->
    prop msg "startTimestamp" = Returns start ->
    toNumber start = Some startTimestamp ->
    exists batches,
      emitted (onMessage JSON_parse len now r chatComments m)
      = map (Publish channelName) batches
      /\ List.concat batches = requested startTimestamp chatComments.
Proof.
  intros now r chatComments m msg start startTimestamp Hp Hty Hst Hnum.
  exists (sendBatches len startTimestamp chatComments).
  rewrite (onMessage_request now r chatComments m msg start startTimestamp)
    by assumption.
  split; [reflexivity|].
  apply (proj2 (sendBatches_spec len startTimestamp chatComments)).
Qed.

(** X9.  No batch is cut short: every batch published before another
    one has a size of 10000 or more; only the last batch of an answer
    can be smaller. *)
Theorem batches_full_but_last :
  forall now r chatComments m msg start startTimestamp,
    JSON_parse (messageJson m) = Some msg ->
    prop msg "type" = Returns (VStr "request-history") ->
    prop msg "startTimestamp" = Returns start ->
    toNumber start = Some startTimestamp ->
    exists batches,
      emitted (onMessage JSON_parse len now r chatComments m)
      = map (Publish channelName) batches
      /\ fullButLast len batches.
Proof.
  intros now r chatComments m msg start startTimestamp Hp Hty Hst Hnum.
  exists (sendBatches len startTimestamp chatComments).
  rewrite (onMessage_request now r chatComments m msg start startTimestamp)
    by assumption.
  split; [reflexivity|apply sendBatches_full].
Qed.

Lemma sorted_map_filter {A : Type} (key : A -> Z) (keep : A -> bool) l :
  Sorted Z.le (map key l) -> Sorted Z.le (map key (filter keep l)).
Proof.
  intros Hs. apply Sorted_StronglySorted in Hs; [|intros x y z; apply Z.le_trans].
  apply StronglySorted_Sorted.
  induction l as [|x l IH]; [constructor|].
  cbn [map] in Hs. inversion Hs as [|? ? Hs' Hall]; subst.
  cbn [filter]. destruct (keep x); [|apply IH, Hs'].
  cbn [map]. constructor; [apply IH, Hs'|].
  rewrite Forall_forall in *. intros t Ht. apply Hall.
  apply in_map_iff in Ht. destruct Ht as (y & <- & Hy).
  apply in_map. apply filter_In in Hy. apply Hy.
Qed.

Lemma nodup_map_filter {A B : Type} (f : A -> B) (keep : A -> bool) l :
  NoDup (map f l) -> NoDup (map f (filter keep l)).
Proof.
  induction l as [|x l IH]; cbn [map filter]; intros Hnd; [constructor|].
  inversion Hnd as [|? ? Hx Hnd']; subst.
  destruct (keep x); [|apply IH, Hnd'].
  cbn [map]. constructor; [|apply IH, Hnd'].
  intros Hin. apply Hx. apply in_map_iff in Hin.
  destruct Hin as (y & Heq & Hy). rewrite <- Heq. apply in_map.
  apply filter_In in Hy. apply Hy.
Qed.

(** X10.  From a store state, what the responder sends is in order and
    without repetition: the messages of the batches, put end to end,
    have non-decreasing timestamps and pairwise different signatures. *)
Theorem responder_sends_in_order :
  forall startTimestamp chatComments,
    reachable JSON_parse chatComments ->
    Sorted Z.le
           (map timestamp (List.concat (sendBatches len startTimestamp chatComments)))
    /\ NoDup (map systemSignature
                  (List.concat (sendBatches len startTimestamp chatComments))).
Proof.
  intros startTimestamp chatComments Hr.
  rewrite (proj2 (sendBatches_spec len startTimestamp chatComments)).
  pose proof (reachable_fromItsMessage JSON_parse chatComments Hr) as Hfrom.
  rewrite Forall_forall in Hfrom.
  unfold requested. split.
  - apply sorted_map_filter. rewrite map_map.
    replace (map (fun c => timestamp (chatMessage c)) chatComments)
      with (map commentTimestamp chatComments).
    + apply (reachable_ascending JSON_parse), Hr.
    + apply map_ext_in. intros c Hc. apply (Hfrom c Hc).
  - apply nodup_map_filter. rewrite map_map.
    replace (map (fun c => systemSignature (chatMessage c)) chatComments)
      with (map commentId chatComments).
    + apply (reachable_unique_ids JSON_parse), Hr.
    + apply map_ext_in. intros c Hc. apply (Hfrom c Hc).
Qed.
End HandlerMore.

Section HandlerEdges.
Variable JSON_parse : string -> option value.
Variable len : ChatMessage -> Z.

(** X11.  A [request-history] whose payload object has no
    [startTimestamp] is answered by nothing, whatever the store holds;
    one whose [startTimestamp] is [null] is answered as if it were 0. *)
Theorem request_without_start :
  forall now r chatComments m fields,
    JSON_parse (messageJson m) = Some (VObj fields) ->
    lookup "type" fields = VStr "request-history" ->
    (lookup "startTimestamp" fields = VUndefined ->
     onMessage JSON_parse len now r chatComments m
     = {| emitted := []; status := Completed |})
    /\ (lookup "startTimestamp" fields = VNull ->
        onMessage JSON_parse len now r chatComments m
        = {| emitted := map (Publish channelName)
                            (sendBatches len (Num 0) chatComments);
             status := Completed |}).
Proof.
  intros now r chatComments m fields Hp Hty. split; intros Hst.
  - rewrite (onMessage_request JSON_parse len now r chatComments m
               (VObj fields) VUndefined NaN); try assumption.
    + rewrite sendBatches_nothing; [reflexivity|]. intros c _. reflexivity.
    + cbn [prop]. rewrite Hty. reflexivity.
    + cbn [prop]. rewrite Hst. reflexivity.
    + reflexivity.
  - apply (onMessage_request JSON_parse len now r chatComments m
             (VObj fields) VNull (Num 0)); try assumption.
    + cbn [prop]. rewrite Hty. reflexivity.
    + cbn [prop]. rewrite Hst. reflexivity.
    + reflexivity.
Qed.

Lemma ingestHistory_until_null now r items cs rest :
  Forall2 (fun v c => asChatMessage v = Some c) items cs ->
  ingestHistory now r (items ++ VNull :: rest)
  = {| emitted := map dispatchAdd (filter (survives now r) cs);
       status := Threw TypeError |}.
Proof.
  induction 1 as [|v c items cs Hv _ IH]; [reflexivity|].
  destruct (asChatMessage_object v c Hv) as [fields ->].
  rewrite <- app_comm_cons. cbn [ingestHistory]. rewrite Hv, IH.
  cbn [filter emitted status].
  replace (survives now r c)
    with (negb (lt_number (timestamp c) (getCaughtUpTimestamp now r)))
    by reflexivity.
  destruct (lt_number (timestamp c) (getCaughtUpTimestamp now r)); reflexivity.
Qed.

(** X12.  The errors of the [history] branch.  When [comments] is not
    an array the handler throws a [TypeError] and dispatches nothing.
    When the array holds [null] after some messages, the messages
    before it are handled as usual, then the handler throws: what
    comes after the [null] is lost. *)
Theorem history_errors :
  forall now r chatComments m msg,
    JSON_parse (messageJson m) = Some msg ->
    prop msg "type" = Returns (VStr "history") ->
    (forall other,
        prop msg "comments" = Returns other ->
        (forall items, other <> VArr items) ->
        onMessage JSON_parse len now r chatComments m
        = {| emitted := []; status := Threw TypeError |})
    /\ (forall items cs rest,
           prop msg "comments" = Returns (VArr (items ++ VNull :: rest)) ->
           Forall2 (fun v c => asChatMessage v = Some c) items cs ->
           onMessage JSON_parse len now r chatComments m
           = {| emitted := map dispatchAdd (filter (survives now r) cs);
                status := Threw TypeError |}).
Proof.
  intros now r chatComments m msg Hp Hty. split.
  - intros other Hcs Hother. unfold onMessage. rewrite Hp, Hty, Hcs.
    cbn [strictEq].
    change ("history" =? "comment")%string with false.
    change ("history" =? "request-history")%string with false.
    change ("history" =? "history")%string with true. cbn iota.
    destruct other; try reflexivity. exfalso. eapply Hother. reflexivity.
  - intros items cs rest Hcs Hitems.
    rewrite (onMessage_history JSON_parse len now r chatComments m msg _ Hp Hty Hcs).
    apply ingestHistory_until_null, Hitems.
Qed.

Lemma ingestHistory_only_adds now r items :
  Forall (fun e => exists c, e = Dispatch (add c))
         (emitted (ingestHistory now r items)).
Proof.
  induction items as [|v items IH]; cbn [ingestHistory]; [constructor|].
  destruct v; try (cbn [emitted]; constructor);
    destruct (asChatMessage _) as [c|]; cbn [emitted]; try constructor.
  destruct (lt_number (timestamp c) (getCaughtUpTimestamp now r));
    cbn [emitted]; [exact IH|].
  constructor; [exists c; reflexivity|exact IH].
Qed.

(** X13.  What the handler never does: on a payload of the types its
    annotations expect, whatever the message, the store and the
    storage, and whether the run completes or throws, it dispatches
    nothing but [add], and it publishes nothing but non-empty history
    batches on the channel of the component. *)
Theorem handler_effects :
  forall now r chatComments m,
    status (onMessage JSON_parse len now r chatComments m) <> IllTyped ->
    Forall (fun e =>
              (exists c, e = Dispatch (add c))
              \/ (exists batch, e = Publish channelName batch /\ batch <> []))
           (emitted (onMessage JSON_parse len now r chatComments m)).
Proof.
  intros now r chatComments m _. unfold onMessage.
  destruct (JSON_parse (messageJson m)) as [msg|]; [|constructor].
  destruct (prop msg "type") as [type|]; [|constructor].
  destruct (strictEq type "comment").
  { cbn [emitted]. constructor; [left; exists m; reflexivity|constructor]. }
  destruct (strictEq type "request-history").
  { destruct (prop msg "startTimestamp") as [start|]; [|constructor].
    destruct (toNumber start) as [startTimestamp|]; [|constructor].
    cbn [emitted]. apply Forall_forall. intros e He.
    apply in_map_iff in He. destruct He as (b & <- & Hb).
    right. exists b. split; [reflexivity|].
    apply (wellFilled_nonempty len).
    pose proof (proj1 (sendBatches_spec len startTimestamp chatComments)) as Hall.
    rewrite Forall_forall in Hall. apply Hall, Hb. }
  destruct (strictEq type "history"); [|constructor].
  destruct (prop msg "comments") as [[]|]; try constructor.
  eapply Forall_impl; [|apply ingestHistory_only_adds].
  intros e He. left. exact He.
Qed.

(** X14.  When the stored catch-up timestamp does not read as a number,
    the [history] branch filters nothing: every message of the batch
    is handed to [add]. *)
Theorem history_unfiltered :
  forall now r chatComments m msg items cs,
    JSON_parse (messageJson m) = Some msg ->
    prop msg "type" = Returns (VStr "history") ->
    prop msg "comments" = Returns (VArr items) ->
    Forall2 (fun v c => asChatMessage v = Some c) items cs ->
    getCaughtUpTimestamp now r = NaN ->
    onMessage JSON_parse len now r chatComments m
    = {| emitted := map dispatchAdd cs; status := Completed |}.
Proof.
  intros now r chatComments m msg items cs Hp Hty Hcs Hitems Hnan.
  rewrite (onMessage_history JSON_parse len now r chatComments m msg items Hp Hty Hcs).
  rewrite (ingestHistory_messages now r items cs Hitems).
  do 2 f_equal. clear Hitems.
  induction cs as [|c cs IH]; [reflexivity|].
  cbn [filter]. unfold survives at 1. rewrite Hnan. cbn [lt_number negb].
  f_equal. exact IH.
Qed.
End HandlerEdges.

(* ------------------------------------------------------------------ *)
(** ** More on the catch-up timestamp                                  *)
(* ------------------------------------------------------------------ *)

Section CaughtUpMore.
Variable Number_exponential : Z -> string.

(** X15.  Reading the catch-up timestamp never fails: with no item, an
    empty item or a storage that throws, the result is one day before
    [now]; and what [setCaughtUpTimestamp] has written for a timestamp
    below 10^21 in absolute value is read back as the same timestamp,
    at any time. *)
Theorem watermark_read_write :
  forall now,
    getCaughtUpTimestamp now (getItemReturns None) = Num (now - 86400000)
    /\ getCaughtUpTimestamp now (getItemReturns (Some "")) = Num (now - 86400000)
    /\ getCaughtUpTimestamp now getItemThrows = Num (now - 86400000)
    /\ forall t st,
        plainDigits t ->
        caughtUp now (setCaughtUpTimestamp Number_exponential t st) = Num t.
Proof.
  intros now. repeat split. intros t st Ht. apply caughtUp_after_set, Ht.
Qed.

Lemma effect_nothing_above now chatComments st :
  (forall c, In c chatComments ->
             gt_number (commentTimestamp c) (caughtUp now st) = false) ->
  commentsEffect Number_exponential true now chatComments st = st.
Proof.
  unfold commentsEffect. cbn [negb].
  induction chatComments as [|c cs IH]; intros Hnone; [reflexivity|].
  cbn [fold_left]. rewrite (Hnone c (or_introl eq_refl)).
  apply IH. intros d Hd. apply Hnone. right. exact Hd.
Qed.

(** X16.  The effect writes only when a comment is above the stored
    value: when no timestamp of the store is above a numeric catch-up
    timestamp, the storage is left as it is; so, on timestamps below
    10^21 in absolute value, running the effect a second time on the
    same store changes nothing. *)
Theorem effect_settles :
  forall now chatComments st w,
    caughtUp now st = Num w ->
    ((forall c, In c chatComments -> commentTimestamp c <= w) ->
     commentsEffect Number_exponential true now chatComments st = st)
    /\ (Forall (fun c => plainDigits (commentTimestamp c)) chatComments ->
        commentsEffect Number_exponential true now chatComments
          (commentsEffect Number_exponential true now chatComments st)
        = commentsEffect Number_exponential true now chatComments st).
Proof.
  intros now chatComments st w Hw. split.
  - intros Hbelow. apply effect_nothing_above. intros c Hc.
    rewrite Hw. cbn [gt_number]. apply Z.ltb_ge, Hbelow, Hc.
  - intros Hplain. apply effect_nothing_above. intros c Hc.
    rewrite (effect_loop Number_exponential now chatComments st w Hw Hplain).
    cbn [gt_number]. apply Z.ltb_ge.
    apply (proj2 (maxTimestamp_bounds chatComments w) c Hc).
Qed.

(** X17.  A stored item that does not read as a number stays: the
    effect never replaces it, whatever comments the store holds. *)
Theorem effect_stuck_on_bad_item :
  forall now chatComments st,
    caughtUp now st = NaN ->
    commentsEffect Number_exponential true now chatComments st = st.
Proof.
  intros now chatComments st Hnan. apply effect_nothing_above.
  intros c _. rewrite Hnan. reflexivity.
Qed.

Lemma parseInt_leading_digit d k next rest :
  digitValue d = Some k -> 1 <= k <= 9 ->
  next = "."%char \/ next = "e"%char ->
  parseInt (String d (String next rest)) = Num k.
Proof.
  intros Hd Hk Hnext.
  destruct d as [b0 b1 b2 b3 b4 b5 b6 b7].
  destruct b0, b1, b2, b3, b4, b5, b6, b7;
    cbv in Hd; try discriminate Hd;
    injection Hd as <-; try lia;
    destruct Hnext as [-> | ->]; reflexivity.
Qed.

(** X28.  From 10^21 on the timestamp is not read back: the engine
    writes it in exponent form, a digit from 1 to 9 followed by a
    point or by the exponent mark, and [getCaughtUpTimestamp] then
    returns that one digit. *)
Theorem exponent_form_read_back :
  forall now t st d k next rest,
    10 ^ 21 <= t ->
    Number_exponential t = String d (String next rest) ->
    digitValue d = Some k -> 1 <= k <= 9 ->
    next = "."%char \/ next = "e"%char ->
    caughtUp now (setCaughtUpTimestamp Number_exponential t st) = Num k
    /\ k < t.
Proof.
  intros now t st d k next rest Ht Hform Hd Hk Hnext. split; [|lia].
  unfold caughtUp, setCaughtUpTimestamp, getCaughtUpTimestamp, Number_toString.
  cbn [item].
  replace (Z.abs t <? 10 ^ 21) with false by (symmetry; apply Z.ltb_ge; lia).
  rewrite Hform. cbn [truthy].
  apply parseInt_leading_digit; assumption.
Qed.
End CaughtUpMore.

(* ------------------------------------------------------------------ *)
(** ** The start-up effect                                             *)
(* ------------------------------------------------------------------ *)

Lemma startup_refs loaded canceled now r refs :
  snd (startup true loaded canceled now r refs)
  = if pastLoad (loaded, canceled, now, r)
    then {| loadComplete := true; sentRequestHistory := true |}
    else refs.
Proof.
  unfold startup, pastLoad. cbn [negb].
  destruct loaded as [ms|]; [destruct canceled|]; reflexivity.
Qed.

Lemma startup_requests loaded canceled now r refs :
  List.length (filter isRequest (fst (startup true loaded canceled now r refs)))
  = if pastLoad (loaded, canceled, now, r) && negb (sentRequestHistory refs)
    then 1%nat else 0%nat.
Proof.
  unfold startup, pastLoad. cbn [negb].
  destruct loaded as [ms|]; [destruct canceled|];
    destruct (sentRequestHistory refs); reflexivity.
Qed.

(** X18.  The request for history is published once per session: over
    any runs of the start-up effect on the same flags, there is one
    [request-history] if the flag was not set and some run got past
    the load, and none otherwise. *)
Theorem request_history_once :
  forall runs refs,
    List.length (filter isRequest (fst (startups runs refs)))
    = if negb (sentRequestHistory refs) && existsb pastLoad runs
      then 1%nat else 0%nat.
Proof.
  induction runs as [|[[[loaded canceled] now] r] runs IH]; intros refs.
  - cbn [startups fst filter List.length existsb]. rewrite andb_false_r.
    reflexivity.
  - cbn [startups existsb].
    pose proof (startup_refs loaded canceled now r refs) as Hrefs.
    pose proof (startup_requests loaded canceled now r refs) as Hreq.
    destruct (startup true loaded canceled now r refs) as [es refs'].
    cbn [fst snd] in Hrefs, Hreq. specialize (IH refs').
    destruct (startups runs refs') as [es' refs''].
    cbn [fst] in IH |- *.
    rewrite filter_app, length_app, Hreq, IH, Hrefs.
    destruct (pastLoad (loaded, canceled, now, r));
      destruct (sentRequestHistory refs); cbn;
      try reflexivity; destruct (existsb pastLoad runs); reflexivity.
Qed.

(** X19.  What a session gives to the reducer at start-up: the arrays
    loaded by the runs that were not canceled, one [addMultiple] each,
    in order, and nothing else; a run canceled while loading, or whose
    load failed, dispatches nothing. *)
Theorem startup_dispatches :
  forall runs refs,
    flat_map dispatchedBy (fst (startups runs refs))
    = map addMultiple (loadedArrays runs).
Proof.
  induction runs as [|[[[loaded canceled] now] r] runs IH]; intros refs;
    [reflexivity|].
  cbn [startups].
  assert (Hone : flat_map dispatchedBy
                          (fst (startup true loaded canceled now r refs))
                 = match loaded, canceled with
                   | Some ms, false => [addMultiple ms]
                   | _, _ => []
                   end).
  { unfold startup. cbn [negb].
    destruct loaded as [ms|]; [destruct canceled|];
      destruct (sentRequestHistory refs); reflexivity. }
  destruct (startup true loaded canceled now r refs) as [es refs'].
  cbn [fst] in Hone. specialize (IH refs').
  destruct (startups runs refs') as [es' refs''].
  cbn [fst] in IH |- *.
  rewrite flat_map_app, Hone, IH.
  destruct loaded as [ms|]; [destruct canceled|]; reflexivity.
Qed.

(* ------------------------------------------------------------------ *)
(** ** Colours and links                                               *)
(* ------------------------------------------------------------------ *)

Lemma codes_sum l :
  forall acc,
    fold_left (fun acc c => acc + Z.of_nat (nat_of_ascii c)) l acc
    = acc + fold_right (fun c acc => Z.of_nat (nat_of_ascii c) + acc) 0 l.
Proof.
  induction l as [|c l IH]; intros acc; cbn [fold_left fold_right]; [lia|].
  rewrite IH. lia.
Qed.

Lemma codes_sum_nonneg l :
  0 <= fold_right (fun c acc => Z.of_nat (nat_of_ascii c) + acc) 0 l.
Proof.
  induction l as [|c l IH]; cbn [fold_right]; lia.
Qed.

Lemma charCodeSum_nonneg s : 0 <= charCodeSum s.
Proof.
  unfold charCodeSum. rewrite codes_sum.
  pose proof (codes_sum_nonneg (list_ascii_of_string s)). lia.
Qed.

(** X20.  The colour of a user: each of the three numbers is between 0
    and 199, and the second and the third are fixed by the first, so
    there are at most 200 colours. *)
Theorem color_range :
  forall s r g b,
    colorChannels s = (r, g, b) ->
    0 <= r < 200 /\ 0 <= g < 200 /\ 0 <= b < 200
    /\ g = (r * 2) mod 200 /\ b = (r * 3) mod 200.
Proof.
  intros s r g b H. unfold colorChannels in H.
  pose proof (charCodeSum_nonneg s) as Hh.
  injection H as <- <- <-.
  rewrite !Z.rem_mod_nonneg by lia.
  repeat split; try (apply Z.mod_pos_bound; lia).
  - rewrite Z.mul_mod_idemp_l by lia. reflexivity.
  - rewrite Z.mul_mod_idemp_l by lia. reflexivity.
Qed.

(** X21.  The colour does not depend on the order of the characters:
    two user ids with the same characters get the same colour. *)
Theorem color_of_anagram :
  forall Number_exponential s1 s2,
    Permutation (list_ascii_of_string s1) (list_ascii_of_string s2) ->
    colorForString Number_exponential s1 = colorForString Number_exponential s2.
Proof.
  intros Number_exponential s1 s2 Hp.
  assert (Hsum : charCodeSum s1 = charCodeSum s2).
  { unfold charCodeSum. rewrite !codes_sum. f_equal.
    induction Hp; cbn [fold_right]; lia. }
  unfold colorForString, colorChannels. rewrite Hsum. reflexivity.
Qed.

Lemma textOf_renderPart i part :
  textOf (renderPart i part)
  = append (if (0 <? i)%nat then " " else EmptyString) part.
Proof.
  unfold renderPart. destruct (_ || _); reflexivity.
Qed.

Lemma splitSpaces_joins s :
  exists part parts,
    splitSpaces s = part :: parts
    /\ append part (textContent (renderParts 1 parts)) = s
    /\ forall i, textContent (renderParts (S i) parts)
                 = textContent (renderParts 1 parts).
Proof.
  induction s as [|c s (part & parts & Hsplit & Hjoin & Hidx)].
  - exists EmptyString, []. repeat split.
  - cbn [splitSpaces]. rewrite Hsplit.
    destruct (Ascii.eqb_spec c " ") as [->|Hc].
    + exists EmptyString, (part :: parts). split; [reflexivity|].
      assert (Hfrom : forall i, textContent (renderParts (S i) (part :: parts))
                                = String " " s).
      { intros i. cbn [renderParts textContent fold_right].
        rewrite textOf_renderPart. cbn [Nat.ltb Nat.leb append].
        fold (textContent (renderParts (S (S i)) parts)).
        rewrite Hidx, Hjoin. reflexivity. }
      split; [apply Hfrom|]. intros i. rewrite !Hfrom. reflexivity.
    + exists (String c part), parts. split; [reflexivity|].
      split; [|exact Hidx]. cbn [append]. rewrite Hjoin. reflexivity.
Qed.

(** X22.  [CommentDisplay] shows the comment as it is: the text of the
    rendered parts, read in order, is the comment, links included. *)
Theorem display_keeps_text :
  forall text, textContent (CommentDisplay text) = text.
Proof.
  intros text. unfold CommentDisplay.
  destruct (splitSpaces_joins text) as (part & parts & -> & Hjoin & _).
  cbn [renderParts textContent fold_right]. rewrite textOf_renderPart.
  cbn [Nat.ltb Nat.leb append]. exact Hjoin.
Qed.

Lemma splitSpaces_parts s :
  Forall (fun part => countSpaces part = 0%nat) (splitSpaces s)
  /\ List.length (splitSpaces s) = S (countSpaces s).
Proof.
  induction s as [|c s [Hall Hlen]]; [repeat constructor|].
  cbn [splitSpaces countSpaces].
  destruct (Ascii.eqb_spec c " ") as [->|Hc].
  - split; [constructor; [reflexivity|exact Hall]|].
    cbn [List.length]. rewrite Hlen. reflexivity.
  - destruct (splitSpaces s) as [|part parts]; [discriminate|].
    inversion Hall as [|? ? Hpart Hparts]; subst. split.
    + constructor; [|exact Hparts]. cbn [countSpaces].
      destruct (Ascii.eqb_spec c " "); [contradiction|exact Hpart].
    + exact Hlen.
Qed.

Lemma renderParts_parts i parts :
  Forall (fun part => countSpaces part = 0%nat) parts ->
  Forall (fun x =>
            match x with
            | Link _ href text =>
                href = text /\ startsWithHttp href = true
                /\ countSpaces href = 0%nat
            | Text _ text =>
                startsWithHttp text = false /\ countSpaces text = 0%nat
            end)
         (renderParts i parts)
  /\ List.length (renderParts i parts) = List.length parts.
Proof.
  revert i. induction parts as [|part parts IH]; intros i Hall;
    [split; [constructor|reflexivity]|].
  inversion Hall as [|? ? Hpart Hparts]; subst.
  destruct (IH (S i) Hparts) as [Hrest Hlen].
  cbn [renderParts List.length]. split; [|rewrite Hlen; reflexivity].
  constructor; [|exact Hrest].
  unfold renderPart. fold (startsWithHttp part).
  destruct (startsWithHttp part) eqn:Hhttp; repeat split; assumption.
Qed.

(** X23.  The parts that [CommentDisplay] renders: one more than the
    comment has spaces; none contains a space; a part is a link
    exactly when it starts with [http://] or [https://], and a link
    points to its own text. *)
Theorem display_parts :
  forall text,
    List.length (CommentDisplay text) = S (countSpaces text)
    /\ Forall (fun x =>
                 match x with
                 | Link _ href shown =>
                     href = shown /\ startsWithHttp href = true
                     /\ countSpaces href = 0%nat
                 | Text _ shown =>
                     startsWithHttp shown = false /\ countSpaces shown = 0%nat
                 end)
              (CommentDisplay text).
Proof.
  intros text. unfold CommentDisplay.
  destruct (splitSpaces_parts text) as [Hall Hlen].
  destruct (renderParts_parts 0 (splitSpaces text) Hall) as [Hparts Hlen'].
  split; [rewrite Hlen', Hlen; reflexivity|exact Hparts].
Qed.

(* ------------------------------------------------------------------ *)
(** ** The comment input, the key pair and the user name               *)
(* ------------------------------------------------------------------ *)

Lemma trimStart_head s c rest :
  trimStart s = String c rest -> isWhiteSpace c = false.
Proof.
  induction s as [|d s IH]; cbn [trimStart]; [discriminate|].
  destruct (isWhiteSpace d) eqn:Hd; [exact IH|].
  intros [= <- _]. exact Hd.
Qed.

Lemma trimEnd_again s : trimEnd (trimEnd s) = trimEnd s.
Proof.
  induction s as [|c s IH]; [reflexivity|].
  cbn [trimEnd]. destruct (trimEnd s) as [|d t] eqn:Ht.
  - destruct (isWhiteSpace c) eqn:Hc; [reflexivity|].
    cbn [trimEnd]. rewrite Hc. reflexivity.
  - cbn [trimEnd] in IH |- *. rewrite IH. reflexivity.
Qed.

Lemma trimEnd_head c rest :
  isWhiteSpace c = false ->
  exists rest', trimEnd (String c rest) = String c rest'.
Proof.
  intros Hc. cbn [trimEnd]. destruct (trimEnd rest) as [|d t].
  - rewrite Hc. eexists. reflexivity.
  - eexists. reflexivity.
Qed.

Lemma trim_again s : trim (trim s) = trim s.
Proof.
  unfold trim. destruct (trimStart s) as [|c rest] eqn:Hs; [reflexivity|].
  pose proof (trimStart_head s c rest Hs) as Hc.
  destruct (trimEnd_head c rest Hc) as [rest' Hrest].
  rewrite Hrest at 1. cbn [trimStart]. rewrite Hc, <- Hrest.
  apply trimEnd_again.
Qed.

(** X24.  What the input bar publishes, for an input in ASCII: only
    on Enter, with a client, and then one comment on the channel, under
    the user name, whose text is the input trimmed; the text has at
    most 1000 characters and trimming it again changes nothing. *)
Theorem published_comment :
  forall client user key value p,
    asciiOnly value = true ->
    In p (submitComment client user key value) ->
    key = "Enter" /\ client = true
    /\ submitComment client user key value
       = [PublishComment channelName user (trim value)]
    /\ p = PublishComment channelName user (trim value)
    /\ (String.length (trim value) <= 1000)%nat
    /\ trim (trim value) = trim value.
Proof.
  intros client user key value p _ Hin.
  unfold submitComment, handleKeyDown, handleComment in *.
  destruct (String.eqb_spec key "Enter") as [->|Hkey]; [|destruct Hin].
  destruct (Z.ltb_spec 1000 (Z.of_nat (String.length (trim value))))
    as [Hlong|Hshort]; cbn [commented] in *; [destruct Hin|].
  destruct client; cbn [negb] in *; [|destruct Hin].
  destruct Hin as [<-|[]].
  repeat split; [lia|apply trim_again].
Qed.

(** X25.  What the input bar does with an input in ASCII: a trimmed text of
    more than 1000 characters is not published, an alert is shown and
    the input is kept; a shorter one is given on and the input is
    emptied, also when nothing is left after trimming, in which case an
    empty comment is published; another key than Enter does nothing. *)
Theorem input_bar_cases :
  forall key value,
    asciiOnly value = true ->
    (key = "Enter" ->
     (1000 < String.length (trim value))%nat ->
     handleKeyDown key value
     = {| alerted := Some "Comment is too long"; commented := None;
          valueAfter := value |})
    /\ (key = "Enter" ->
        (String.length (trim value) <= 1000)%nat ->
        handleKeyDown key value
        = {| alerted := None; commented := Some (trim value);
             valueAfter := EmptyString |})
    /\ (key = "Enter" ->
        trimStart value = EmptyString ->
        forall user,
          submitComment true user key value
          = [PublishComment channelName user EmptyString])
    /\ (key <> "Enter" ->
        handleKeyDown key value
        = {| alerted := None; commented := None; valueAfter := value |}).
Proof.
  intros key value _. unfold submitComment, handleKeyDown.
  split; [|split; [|split]].
  - intros -> Hlong. cbn [String.eqb Ascii.eqb Bool.eqb].
    replace (1000 <? Z.of_nat (String.length (trim value))) with true
      by (symmetry; apply Z.ltb_lt; lia).
    reflexivity.
  - intros -> Hshort. cbn [String.eqb Ascii.eqb Bool.eqb].
    replace (1000 <? Z.of_nat (String.length (trim value))) with false
      by (symmetry; apply Z.ltb_ge; lia).
    reflexivity.
  - intros -> Hblank user. cbn [String.eqb Ascii.eqb Bool.eqb].
    unfold trim. rewrite Hblank. reflexivity.
  - intros Hkey. apply String.eqb_neq in Hkey. rewrite Hkey. reflexivity.
Qed.

(** X26.  The key pair persists.  After [getPersistentKeyPair] the two
    items of the storage are the pair it returned; and when that pair
    is valid and none of its keys is empty, a later call returns the
    same pair and leaves the storage as it is, whatever
    [generateKeyPair] would return then. *)
Theorem key_pair_persists :
  forall isValidKeyPair generated ls kp ls',
    getPersistentKeyPair isValidKeyPair generated ls = (kp, ls') ->
    publicKeyItem ls' = Some (publicKey kp)
    /\ privateKeyItem ls' = Some (privateKey kp)
    /\ (publicKey kp <> EmptyString ->
        privateKey kp <> EmptyString ->
        isValidKeyPair (publicKey kp) (privateKey kp) = true ->
        forall generated',
          getPersistentKeyPair isValidKeyPair generated' ls' = (kp, ls')).
Proof.
  intros isValidKeyPair generated ls kp ls' H.
  assert (Hitems : publicKeyItem ls' = Some (publicKey kp)
                   /\ privateKeyItem ls' = Some (privateKey kp)).
  { unfold getPersistentKeyPair in H.
    destruct (publicKeyItem ls) as [pub|] eqn:Hpub;
      destruct (privateKeyItem ls) as [priv|] eqn:Hpriv;
      try (injection H as <- <-; split; reflexivity).
    destruct (truthy (Some pub) && truthy (Some priv));
      [destruct (isValidKeyPair pub priv)|];
      injection H as <- <-; split; (reflexivity || assumption). }
  destruct Hitems as [Hpub Hpriv]. split; [exact Hpub|split; [exact Hpriv|]].
  intros Hp Hq Hvalid generated'. unfold getPersistentKeyPair.
  rewrite Hpub, Hpriv.
  destruct kp as [pub priv]. cbn [publicKey privateKey] in *.
  destruct pub; [contradiction|]. destruct priv; [contradiction|].
  cbn [truthy andb]. rewrite Hvalid. reflexivity.
Qed.

(** X27.  The user name is never empty and is kept: it starts as the
    stored name, or [Anonymous] when none or an empty one is stored; an
    answer to the prompt that is not empty becomes the name and is what
    a reload starts with; no answer, or an empty one, changes
    nothing. *)
Theorem user_name_kept :
  forall stored answer name,
    initialUserName stored <> EmptyString
    /\ (name <> EmptyString ->
        fst (changeUserName answer (name, stored)) <> EmptyString)
    /\ (forall a, answer = Some a -> a <> EmptyString ->
                  changeUserName answer (name, stored) = (a, Some a)
                  /\ initialUserName (snd (changeUserName answer (name, stored)))
                     = a)
    /\ (answer = None \/ answer = Some EmptyString ->
        changeUserName answer (name, stored) = (name, stored)).
Proof.
  intros stored answer name. split; [|split; [|split]].
  - destruct stored as [[|c s]|]; discriminate.
  - intros Hname. destruct answer as [[|c s]|]; cbn; (exact Hname || discriminate).
  - intros a -> Ha. destruct a as [|c s]; [contradiction|]. split; reflexivity.
  - intros [->| ->]; reflexivity.
Qed.

(* ------------------------------------------------------------------ *)
(** ** More runs on concrete messages                                  *)
(* ------------------------------------------------------------------ *)

Lemma store_only_grows_witness :
  (incl [] [boundaryComment]
   /\ (List.length [boundaryComment] <= S (List.length (@nil ChatComment)))%nat)
  /\ (incl [boundaryComment] [boundaryComment; futureComment]
      /\ (List.length [boundaryComment; futureComment]
          <= List.length [boundaryComment]
             + List.length [boundaryMessage; futureMessage])%nat).
Proof.
  split.
  - apply (proj1 (store_only_grows sampleParse) now0 [] boundaryMessage).
    vm_compute. reflexivity.
  - apply (proj2 (store_only_grows sampleParse) now0
                 [boundaryMessage; futureMessage] [boundaryComment]).
    vm_compute. reflexivity.
Defined.

Lemma accepted_comment_place_witness :
  chatCommentsReducer sampleParse now0 [boundaryComment] (add futureMessage)
  = Returns
      (filter (fun d => commentTimestamp d <=? timestamp futureMessage)
              [boundaryComment]
         ++ futureComment
         :: filter (fun d => timestamp futureMessage <? commentTimestamp d)
                   [boundaryComment]).
Proof.
  apply (accepted_comment_place sampleParse now0 [boundaryComment] futureMessage
           (commentPayload "bob" "world") (VStr "bob") (VStr "world")).
  - repeat constructor.
  - vm_compute. discriminate.
  - vm_compute. reflexivity.
  - reflexivity.
  - reflexivity.
  - vm_compute. intros [H|[]]. discriminate H.
Defined.

Lemma adds_commute_witness :
  chatCommentsReducer sampleParse now0 [] (addMultiple [boundaryMessage; futureMessage])
  = chatCommentsReducer sampleParse now0 [] (addMultiple [futureMessage; boundaryMessage]).
Proof.
  apply (adds_commute sampleParse now0 [] boundaryMessage futureMessage
           (commentPayload "ann" "hello") (VStr "ann") (VStr "hello")
           (commentPayload "bob" "world") (VStr "bob") (VStr "world")).
  - vm_compute. discriminate.
  - vm_compute. discriminate.
  - vm_compute. reflexivity.
  - reflexivity.
  - reflexivity.
  - vm_compute. reflexivity.
  - reflexivity.
  - reflexivity.
  - intros [].
  - intros [].
  - vm_compute. discriminate.
  - vm_compute. discriminate.
Defined.

Lemma add_errors_witness :
  chatCommentsReducer widerParse now0 [] (add expiredMessage) = Returns []
  /\ chatCommentsReducer widerParse now0 [] (add garbledMessage)
     = Throws SyntaxError
  /\ chatCommentsReducer widerParse now0 [] (add nullMessage) = Throws TypeError.
Proof.
  split; [|split].
  - apply (proj1 (add_errors widerParse now0 [] expiredMessage)).
    vm_compute. reflexivity.
  - apply (proj1 (proj2 (add_errors widerParse now0 [] garbledMessage))).
    + vm_compute. discriminate.
    + vm_compute. reflexivity.
  - apply (proj2 (proj2 (add_errors widerParse now0 [] nullMessage))).
    + vm_compute. discriminate.
    + vm_compute. reflexivity.
Defined.

Lemma addMultiple_composes_witness :
  chatCommentsReducer sampleParse now0 []
    (addMultiple ([boundaryMessage] ++ garbledMessage :: [futureMessage]))
  = Throws SyntaxError.
Proof.
  apply (proj2 (addMultiple_composes sampleParse) now0 [] [boundaryMessage]
               garbledMessage [futureMessage] [boundaryComment] SyntaxError).
  - vm_compute. reflexivity.
  - vm_compute. reflexivity.
Defined.

Lemma addMultiple_replay_witness :
  chatCommentsReducer sampleParse (now0 + 1) [boundaryComment; futureComment]
    (addMultiple [boundaryMessage; futureMessage])
  = Returns [boundaryComment; futureComment].
Proof.
  apply (addMultiple_replay sampleParse now0 (now0 + 1) []
           [boundaryMessage; futureMessage]).
  - unfold now0. lia.
  - vm_compute. reflexivity.
Defined.

Lemma comments_agree_with_messages_witness :
  Forall fromItsMessage [boundaryComment]
  /\ NoDup (map (fun c => systemSignature (chatMessage c)) [boundaryComment]).
Proof.
  apply (comments_agree_with_messages sampleParse).
  apply (reachable_step sampleParse now0 [] (add boundaryMessage)).
  - apply reachable_init.
  - vm_compute. reflexivity.
Defined.

Lemma responder_complete_witness :
  exists batches,
    emitted (onMessage sampleParse sampleLength now0 (getItemReturns None)
                       [boundaryComment; futureComment] requestMessage)
    = map (Publish channelName) batches
    /\ List.concat batches = requested (Num 0) [boundaryComment; futureComment].
Proof.
  apply (responder_complete sampleParse sampleLength now0 (getItemReturns None)
           [boundaryComment; futureComment] requestMessage
           (requestHistoryPayload 0) (VNum 0) (Num 0)).
  - vm_compute. reflexivity.
  - reflexivity.
  - reflexivity.
  - reflexivity.
Defined.

Lemma batches_full_but_last_witness :
  exists batches,
    emitted (onMessage sampleParse (fun _ => 6000) now0 (getItemReturns None)
                       [boundaryComment; futureComment; staleComment]
                       requestMessage)
    = map (Publish channelName) batches
    /\ fullButLast (fun _ => 6000) batches.
Proof.
  apply (batches_full_but_last sampleParse (fun _ => 6000) now0
           (getItemReturns None) [boundaryComment; futureComment; staleComment]
           requestMessage (requestHistoryPayload 0) (VNum 0) (Num 0)).
  - vm_compute. reflexivity.
  - reflexivity.
  - reflexivity.
  - reflexivity.
Defined.

Lemma responder_sends_in_order_witness :
  List.concat (sendBatches sampleLength (Num 0) [boundaryComment; futureComment])
  = [boundaryMessage; futureMessage]
  /\ Sorted Z.le
            (map timestamp
                 (List.concat (sendBatches sampleLength (Num 0)
                                           [boundaryComment; futureComment])))
  /\ NoDup (map systemSignature
                (List.concat (sendBatches sampleLength (Num 0)
                                          [boundaryComment; futureComment]))).
Proof.
  split; [vm_compute; reflexivity|].
  apply (responder_sends_in_order sampleParse sampleLength (Num 0)
           [boundaryComment; futureComment]).
  apply (reachable_step sampleParse now0 [boundaryComment] (add futureMessage)).
  - apply (reachable_step sampleParse now0 [] (add boundaryMessage)).
    + apply reachable_init.
    + vm_compute. reflexivity.
  - vm_compute. reflexivity.
Defined.

Lemma handler_effects_witness :
  Forall (fun e =>
            (exists c, e = Dispatch (add c))
            \/ (exists batch, e = Publish channelName batch /\ batch <> []))
         (emitted (onMessage sampleParse sampleLength now0 (getItemReturns None)
                             [boundaryComment; futureComment] requestMessage))
  /\ Forall (fun e =>
               (exists c, e = Dispatch (add c))
               \/ (exists batch, e = Publish channelName batch /\ batch <> []))
            (emitted (onMessage widerParse sampleLength now0
                                (getItemReturns None) [] brokenHistoryMessage)).
Proof.
  split.
  - apply (handler_effects sampleParse sampleLength now0 (getItemReturns None)
             [boundaryComment; futureComment] requestMessage).
    vm_compute. discriminate.
  - apply (handler_effects widerParse sampleLength now0 (getItemReturns None)
             [] brokenHistoryMessage).
    vm_compute. discriminate.
Defined.

Lemma request_without_start_witness :
  onMessage widerParse sampleLength now0 (getItemReturns None)
            [boundaryComment] bareRequestMessage
  = {| emitted := []; status := Completed |}
  /\ onMessage widerParse sampleLength now0 (getItemReturns None)
               [boundaryComment] nullRequestMessage
     = {| emitted := map (Publish channelName)
                         (sendBatches sampleLength (Num 0) [boundaryComment]);
          status := Completed |}.
Proof.
  split.
  - apply (proj1 (request_without_start widerParse sampleLength now0
                    (getItemReturns None) [boundaryComment] bareRequestMessage
                    [("type", VStr "request-history")]
                    ltac:(vm_compute; reflexivity) eq_refl)).
    reflexivity.
  - apply (proj2 (request_without_start widerParse sampleLength now0
                    (getItemReturns None) [boundaryComment] nullRequestMessage
                    [("type", VStr "request-history"); ("startTimestamp", VNull)]
                    ltac:(vm_compute; reflexivity) eq_refl)).
    reflexivity.
Defined.

Lemma history_errors_witness :
  onMessage widerParse sampleLength now0 (getItemReturns None) []
            scalarHistoryMessage
  = {| emitted := []; status := Threw TypeError |}
  /\ onMessage widerParse sampleLength now0 (getItemReturns None) []
               brokenHistoryMessage
     = {| emitted := map dispatchAdd
                         (filter (survives now0 (getItemReturns None))
                                 [strayRequest]);
          status := Threw TypeError |}.
Proof.
  split.
  - apply (proj1 (history_errors widerParse sampleLength now0
                    (getItemReturns None) [] scalarHistoryMessage
                    scalarHistoryPayload
                    ltac:(vm_compute; reflexivity) eq_refl) (VNum 5)).
    + reflexivity.
    + intros items. discriminate.
  - apply (proj2 (history_errors widerParse sampleLength now0
                    (getItemReturns None) [] brokenHistoryMessage
                    brokenHistoryPayload
                    ltac:(vm_compute; reflexivity) eq_refl)
             [valueOfChatMessage strayRequest] [strayRequest]
             [valueOfChatMessage boundaryMessage]).
    + reflexivity.
    + repeat constructor.
Defined.

Lemma history_unfiltered_witness :
  onMessage sampleParse sampleLength now0 (getItemReturns (Some "abc")) []
            historyMessage
  = {| emitted := map dispatchAdd [staleMessage; strayRequest];
       status := Completed |}.
Proof.
  apply (history_unfiltered sampleParse sampleLength now0
           (getItemReturns (Some "abc")) [] historyMessage
           (historyPayload [staleMessage; strayRequest])
           (map valueOfChatMessage [staleMessage; strayRequest])).
  - vm_compute. reflexivity.
  - reflexivity.
  - reflexivity.
  - repeat constructor.
  - reflexivity.
Defined.

Lemma watermark_read_write_witness :
  caughtUp now0 (setCaughtUpTimestamp sampleExponential (now0 + 5) emptyStorage)
  = Num (now0 + 5).
Proof.
  apply (proj2 (proj2 (proj2 (watermark_read_write sampleExponential now0)))).
  unfold plainDigits. vm_compute. reflexivity.
Defined.

Lemma effect_settles_witness :
  commentsEffect sampleExponential true now0 [staleComment] emptyStorage
  = emptyStorage
  /\ commentsEffect sampleExponential true now0 [boundaryComment; futureComment]
       (commentsEffect sampleExponential true now0
                       [boundaryComment; futureComment] emptyStorage)
     = commentsEffect sampleExponential true now0
                      [boundaryComment; futureComment] emptyStorage.
Proof.
  split.
  - apply (proj1 (effect_settles sampleExponential now0 [staleComment]
                    emptyStorage (now0 - 86400000) eq_refl)).
    intros c [<-|[]]. vm_compute. discriminate.
  - apply (proj2 (effect_settles sampleExponential now0
                    [boundaryComment; futureComment] emptyStorage
                    (now0 - 86400000) eq_refl)).
    repeat constructor.
Defined.

Lemma effect_stuck_on_bad_item_witness :
  commentsEffect sampleExponential true now0 [futureComment] badStorage
  = badStorage.
Proof.
  apply (effect_stuck_on_bad_item sampleExponential now0 [futureComment]
           badStorage).
  reflexivity.
Defined.

Lemma exponent_form_read_back_witness :
  caughtUp now0 (setCaughtUpTimestamp sampleExponential (10 ^ 21) emptyStorage)
  = Num 1
  /\ 1 < 10 ^ 21.
Proof.
  apply (exponent_form_read_back sampleExponential now0 (10 ^ 21) emptyStorage
           "1"%char 1 "e"%char "+21").
  - apply Z.le_refl.
  - reflexivity.
  - reflexivity.
  - split; [apply Z.le_refl|discriminate].
  - right. reflexivity.
Defined.

Lemma color_range_witness :
  0 <= 94 < 200 /\ 0 <= 188 < 200 /\ 0 <= 82 < 200
  /\ 188 = (94 * 2) mod 200 /\ 82 = (94 * 3) mod 200.
Proof.
  apply (color_range "abc" 94 188 82). reflexivity.
Defined.

Lemma color_of_anagram_witness :
  colorForString sampleExponential "ab" = colorForString sampleExponential "ba".
Proof.
  apply (color_of_anagram sampleExponential "ab" "ba"). apply perm_swap.
Defined.

Lemma published_comment_witness :
  "Enter" = "Enter" /\ true = true
  /\ submitComment true "ann" "Enter" "  hello  "
     = [PublishComment channelName "ann" (trim "  hello  ")]
  /\ PublishComment channelName "ann" "hello"
     = PublishComment channelName "ann" (trim "  hello  ")
  /\ (String.length (trim "  hello  ") <= 1000)%nat
  /\ trim (trim "  hello  ") = trim "  hello  ".
Proof.
  apply (published_comment true "ann" "Enter" "  hello  "
           (PublishComment channelName "ann" "hello")).
  - reflexivity.
  - left. reflexivity.
Defined.

Lemma input_bar_cases_witness :
  handleKeyDown "Enter" "  hello  "
  = {| alerted := None; commented := Some (trim "  hello  ");
       valueAfter := EmptyString |}
  /\ submitComment true "ann" "Enter" "   "
     = [PublishComment channelName "ann" EmptyString]
  /\ handleKeyDown "a" "hell"
     = {| alerted := None; commented := None; valueAfter := "hell" |}.
Proof.
  split; [|split].
  - apply (proj1 (proj2 (input_bar_cases "Enter" "  hello  " eq_refl)) eq_refl).
    vm_compute. repeat constructor.
  - apply (proj1 (proj2 (proj2 (input_bar_cases "Enter" "   " eq_refl)))
             eq_refl eq_refl).
  - apply (proj2 (proj2 (proj2 (input_bar_cases "a" "hell" eq_refl)))).
    discriminate.
Defined.

Lemma key_pair_persists_witness :
  publicKeyItem {| publicKeyItem := Some "pk"; privateKeyItem := Some "sk" |}
  = Some (publicKey sampleKeys)
  /\ privateKeyItem {| publicKeyItem := Some "pk"; privateKeyItem := Some "sk" |}
     = Some (privateKey sampleKeys)
  /\ getPersistentKeyPair (fun _ _ => true) otherKeys
       {| publicKeyItem := Some "pk"; privateKeyItem := Some "sk" |}
     = (sampleKeys,
        {| publicKeyItem := Some "pk"; privateKeyItem := Some "sk" |}).
Proof.
  destruct (key_pair_persists (fun _ _ => true) sampleKeys emptyKeys sampleKeys
              {| publicKeyItem := Some "pk"; privateKeyItem := Some "sk" |}
              eq_refl) as (Hpub & Hpriv & Hagain).
  split; [exact Hpub|split; [exact Hpriv|]].
  apply Hagain; [discriminate|discriminate|reflexivity].
Defined.

Lemma user_name_kept_witness :
  fst (changeUserName (Some "zoe") ("Anonymous", None)) <> EmptyString
  /\ (changeUserName (Some "zoe") ("Anonymous", None) = ("zoe", Some "zoe")
      /\ initialUserName (snd (changeUserName (Some "zoe") ("Anonymous", None)))
         = "zoe")
  /\ changeUserName None ("zoe", Some "zoe") = ("zoe", Some "zoe").
Proof.
  split; [|split].
  - apply (proj1 (proj2 (user_name_kept None (Some "zoe") "Anonymous"))).
    discriminate.
  - apply (proj1 (proj2 (proj2 (user_name_kept None (Some "zoe") "Anonymous")))
             "zoe" eq_refl).
    discriminate.
  - apply (proj2 (proj2 (proj2 (user_name_kept (Some "zoe") None "zoe")))).
    left. reflexivity.
Defined.
